(** * Document review engine: highlight coordination, job polling, edit session

    A shallow embedding of the review page [web/src/pages/OCRResult.tsx]
    and of the [ExtractedInfoDisplay] component, with the properties of
    the design document stated against it.

    Conventions of the embedding.
    - React state is a record; a handler is a function from the state (and
      the values its closure captured) to the next state.
    - [undefined] is [None]; a JavaScript exception is the outcome [Thrown].
    - Token indices, page numbers and pixel coordinates are integers.
    - Text is ASCII: [\s] and [toLowerCase] are given on the 7-bit range. *)

From Stdlib Require Import ZArith Lia Bool Ascii String.
From Stdlib Require Import DecimalString DecimalNat Sorted.
From stdpp Require Import base option list.

Set Warnings "-register-all".

Local Open Scope string_scope.
Local Open Scope Z_scope.

(** ** JavaScript values and built-ins used by the page *)

Module Js.

(** Result of running code that may raise. *)
Inductive outcome (A : Type) : Type :=
| Returned (a : A)
| Thrown.
Arguments Returned {A} a.
Arguments Thrown {A}.

(** [s.split('.')]: never empty, [''.split('.')] is [['']]. *)
Fixpoint split_dot (s : string) : list string :=
  match s with
  | EmptyString => [EmptyString]
  | String c rest =>
      if Ascii.eqb c "."%char then EmptyString :: split_dot rest
      else match split_dot rest with
           | [] => [String c EmptyString]
           | hd :: tl => String c hd :: tl
           end
  end.

(** A [string] holds the code units of a JS string.  The text functions
    below follow the source on 7-bit text, the code units below 128: there
    the class [\s] is TAB, LF, VT, FF, CR and SPACE, and [toLowerCase] folds
    A-Z and nothing else.  The Unicode members of [\s] (U+00A0, U+3000,
    U+FEFF, ...) and the case folding of non-ASCII letters are outside this
    model; a theorem that depends on what [is_space] or [lower_char]
    compute is stated for [seven_bit] text. *)
Definition is_ascii7 (c : ascii) : bool := (nat_of_ascii c <? 128)%nat.

Fixpoint seven_bit (s : string) : bool :=
  match s with
  | EmptyString => true
  | String c rest => is_ascii7 c && seven_bit rest
  end.

(** The class [\s] on 7-bit code units: TAB, LF, VT, FF, CR, SPACE. *)
Definition is_space (c : ascii) : bool :=
  let n := nat_of_ascii c in
  ((9 <=? n)%nat && (n <=? 13)%nat) || (n =? 32)%nat.

(** [s.replace(/\s+/g, "")] on 7-bit text: every whitespace run is
    deleted. *)
Fixpoint strip_spaces (s : string) : string :=
  match s with
  | EmptyString => EmptyString
  | String c rest =>
      if is_space c then strip_spaces rest else String c (strip_spaces rest)
  end.

(** [toLowerCase] on one 7-bit code unit: A-Z to a-z. *)
Definition lower_char (c : ascii) : ascii :=
  let n := nat_of_ascii c in
  if ((65 <=? n)%nat && (n <=? 90)%nat)%bool then ascii_of_nat (n + 32) else c.

(** [s.toLowerCase()] on 7-bit text. *)
Fixpoint toLowerCase (s : string) : string :=
  match s with
  | EmptyString => EmptyString
  | String c rest => String (lower_char c) (toLowerCase rest)
  end.

Fixpoint starts_with (needle hay : string) : bool :=
  match needle, hay with
  | EmptyString, _ => true
  | String _ _, EmptyString => false
  | String a n', String b h' => Ascii.eqb a b && starts_with n' h'
  end.

(** [hay.includes(needle)]. *)
Fixpoint includes (hay needle : string) : bool :=
  starts_with needle hay
  || match hay with
     | EmptyString => false
     | String _ rest => includes rest needle
     end.

(** Decimal rendering of an array position, as in [String(i)]. *)
Definition string_of_index (i : nat) : string :=
  NilEmpty.string_of_uint (Nat.to_uint i).

(** A property key that is a canonical array index ("0", "7", "12", but
    not "07" or ""). *)
Definition parse_index (key : string) : option nat :=
  match NilEmpty.uint_of_string key with
  | Some d =>
      let i := Nat.of_uint d in
      if String.eqb (string_of_index i) key then Some i else None
  | None => None
  end.

(** [arr[i]] for a numeric [i]: negative positions are [undefined]. *)
Definition at_Z {A : Type} (l : list A) (i : Z) : option A :=
  if 0 <=? i then l !! Z.to_nat i else None.

(** [arr.findIndex(p)], with [None] for [-1]. *)
Fixpoint findIndex {A : Type} (p : A -> bool) (l : list A) : option nat :=
  match l with
  | [] => None
  | x :: rest => if p x then Some 0%nat else S <$> findIndex p rest
  end.

(** Own properties of an object literal, in insertion order; assigning an
    existing key keeps its place. *)
Fixpoint obj_get {V : Type} (kv : list (string * V)) (key : string) : option V :=
  match kv with
  | [] => None
  | (k, v) :: rest => if String.eqb k key then Some v else obj_get rest key
  end.

Fixpoint obj_set {V : Type} (kv : list (string * V)) (key : string) (v : V)
  : list (string * V) :=
  match kv with
  | [] => [(key, v)]
  | (k, w) :: rest =>
      if String.eqb k key then (k, v) :: rest else (k, w) :: obj_set rest key v
  end.

End Js.

Import Js.

(** ** Extracted values and the field schema *)

Module Values.

(** A value of [extractedInfo] ([Record<string, any>]): JSON, plus
    [undefined] for the holes an indexed write can leave in an array. *)
Inductive ival : Type :=
| VUndef
| VNull
| VBool (b : bool)
| VNum (z : Z)
| VStr (s : string)
| VArr (items : list ival)
| VObj (props : list (string * ival)).

Definition info : Type := list (string * ival).

Definition truthy (v : ival) : bool :=
  match v with
  | VUndef | VNull => false
  | VBool b => b
  | VNum z => negb (z =? 0)
  | VStr s => negb (String.eqb s "")
  | VArr _ | VObj _ => true
  end.

(** [obj[key]]: a missing key and a stored [undefined] read the same. *)
Definition read (obj : info) (key : string) : ival :=
  default VUndef (obj_get obj key).

Fixpoint chars (s : string) : list ival :=
  match s with
  | EmptyString => []
  | String c rest => VStr (String c EmptyString) :: chars rest
  end.

Definition indexed (l : list ival) : info :=
  imap (fun i x => (string_of_index i, x)) l.

(** [{...v}]: own enumerable properties; arrays and strings spread by
    position, other primitives spread to nothing. *)
Definition obj_spread (v : ival) : info :=
  match v with
  | VObj props => props
  | VArr items => indexed items
  | VStr s => indexed (chars s)
  | VUndef | VNull | VBool _ | VNum _ => []
  end.

(** [[...v]] for a truthy [v]: arrays and strings are iterable, anything
    else raises a [TypeError]. *)
Definition arr_spread (v : ival) : outcome (list ival) :=
  match v with
  | VArr items => Returned items
  | VStr s => Returned (chars s)
  | _ => Thrown
  end.

(** [arr[i] = v]: in range it overwrites, past the end the array grows and
    the skipped positions are holes. *)
Definition arr_set (l : list ival) (i : nat) (v : ival) : list ival :=
  if (i <? length l)%nat then <[i := v]> l
  else l ++ replicate (i - length l) VUndef ++ [v].

(** [arr.splice(i, 1)]. *)
Definition splice1 (l : list ival) (i : nat) : list ival := delete i l.

(** [Field] of [types/app-schema.ts]. *)
Inductive Field : Type := mkField {
  name : string;
  display_name : string;
  type : string;
  fields : option (list Field);
  items : option (string * option (list Field))
}.

End Values.

Import Values.

(** ** The review page: tokens, mapping tree, view state *)

Module Review.

(** A mapping payload ([ExtractionMapping], typed [any] in the source):
    JSON built from [null], integers, arrays and objects.  Leaves are
    arrays of token indices. *)
Inductive mval : Type :=
| MNull
| MNum (z : Z)
| MArr (items : list mval)
| MObj (props : list (string * mval)).

Definition truthy (v : mval) : bool :=
  match v with
  | MNull => false
  | MNum z => negb (z =? 0)
  | MArr _ | MObj _ => true
  end.

(** [v[key]] on own properties.  Inherited members (methods of
    [Array.prototype] and the like) are functions; every path of the page
    that would read one of them returns without any state change, which
    is also what [None] gives here. *)
Definition get_prop (v : mval) (key : string) : option mval :=
  match v with
  | MObj props => obj_get props key
  | MArr items =>
      if String.eqb key "length" then Some (MNum (Z.of_nat (length items)))
      else i ← parse_index key; items !! i
  | MNull | MNum _ => None
  end.

(** [getNestedValue], lines 184-188. *)
Definition getNestedValue (obj : mval) (path : string) : option mval :=
  fold_left
    (fun current key =>
       match current with
       | Some c => if truthy c then get_prop c key else None
       | None => None
       end)
    (split_dot path) (Some obj).

(** [x || []]. *)
Definition or_empty (x : option mval) : mval :=
  match x with
  | Some v => if truthy v then v else MArr []
  | None => MArr []
  end.

(** [v.length === 0]. *)
Definition length_is_zero (v : mval) : bool :=
  match get_prop v "length" with
  | Some (MNum 0) => true
  | _ => false
  end.

(** The array position named by a value used as a property key:
    [String([x])] is [String(x)], [String([])] is [""], an object gives
    ["[object Object]"]. *)
Fixpoint to_index (v : mval) : option nat :=
  match v with
  | MNum z => if 0 <=? z then Some (Z.to_nat z) else None
  | MArr [x] => to_index x
  | _ => None
  end.

(** [OcrWord] of [types/ocr.ts]; the scores and the optional [id] are
    never read by the page. *)
Record OcrWord : Type := mkWord {
  content : string;
  points : option (list (list Z));
  page : option Z
}.

(** [ocrWords[index]] where [index] may be [undefined]. *)
Definition word_at (ocrWords : list OcrWord) (index : option mval) : option OcrWord :=
  i ← index ≫= to_index; ocrWords !! i.

(** A number that may be [NaN]. *)
Inductive jsnum : Type :=
| Num (z : Z)
| NaN.

(** [a - b] on integer coordinates.  The source subtracts doubles: the
    difference is the exact one as long as both numbers are integers of
    magnitude at most 2^52; what is proved about the value of a difference
    is stated for such coordinates. *)
Definition num_sub (a b : jsnum) : jsnum :=
  match a, b with
  | Num x, Num y => Num (x - y)
  | _, _ => NaN
  end.

(** [Math.min(...xs)] and [Math.max(...xs)] for a non-empty [xs]; a missing
    coordinate is [undefined] and makes the result [NaN].  The page only
    calls them on at least four vertices. *)
Fixpoint fold_num (op : Z -> Z -> Z) (acc : jsnum) (xs : list (option Z)) : jsnum :=
  match xs with
  | [] => acc
  | Some x :: rest =>
      fold_num op (match acc with Num a => Num (op a x) | NaN => NaN end) rest
  | None :: rest => fold_num op NaN rest
  end.

Definition math_min (xs : list (option Z)) : jsnum :=
  match xs with
  | Some x :: rest => fold_num Z.min (Num x) rest
  | _ => NaN
  end.

Definition math_max (xs : list (option Z)) : jsnum :=
  match xs with
  | Some x :: rest => fold_num Z.max (Num x) rest
  | _ => NaN
  end.

(** [OcrBoundingBox]; the fields carry a prefix because [id] and [left]
    are taken. *)
Record OcrBoundingBox : Type := mkBox {
  bx_id : nat;
  bx_top : jsnum;
  bx_left : jsnum;
  bx_width : jsnum;
  bx_height : jsnum;
  bx_text : string
}.

Inductive View : Type := ViewOcr | ViewExtraction.

Record PageUrl : Type := mkPageUrl { url_page : Z; url : string }.

(** The [useState] cells of [OcrResult] that highlighting, navigation and
    box generation read or write. *)
Record State : Type := mkState {
  imageSrc : string;
  imageUrls : list PageUrl;
  currentPageIndex : Z;
  totalPages : Z;
  isMultipage : bool;
  ocrWords : list OcrWord;
  boundingBoxes : list OcrBoundingBox;
  selectedIndex : option nat;
  mapping : mval;
  activeView : View
}.

Definition setCurrentPageIndex (i : Z) (st : State) : State :=
  mkState (imageSrc st) (imageUrls st) i (totalPages st) (isMultipage st)
    (ocrWords st) (boundingBoxes st) (selectedIndex st) (mapping st) (activeView st).

Definition setImageSrc (s : string) (st : State) : State :=
  mkState s (imageUrls st) (currentPageIndex st) (totalPages st) (isMultipage st)
    (ocrWords st) (boundingBoxes st) (selectedIndex st) (mapping st) (activeView st).

Definition setBoundingBoxes (b : list OcrBoundingBox) (st : State) : State :=
  mkState (imageSrc st) (imageUrls st) (currentPageIndex st) (totalPages st)
    (isMultipage st) (ocrWords st) b (selectedIndex st) (mapping st) (activeView st).

Definition setSelectedIndex (i : option nat) (st : State) : State :=
  mkState (imageSrc st) (imageUrls st) (currentPageIndex st) (totalPages st)
    (isMultipage st) (ocrWords st) (boundingBoxes st) i (mapping st) (activeView st).

Definition setActiveView (v : View) (st : State) : State :=
  mkState (imageSrc st) (imageUrls st) (currentPageIndex st) (totalPages st)
    (isMultipage st) (ocrWords st) (boundingBoxes st) (selectedIndex st) (mapping st) v.

(** [imageUrls[i]?.url || ""]. *)
Definition url_at (urls : list PageUrl) (i : Z) : string :=
  match at_Z urls i with
  | Some u => url u
  | None => ""
  end.

(** *** Bounding boxes, lines 108-148 *)

Definition on_page (currentPage : Z) (word : OcrWord) : bool :=
  bool_decide (page word = Some currentPage).

Definition degenerate (word : OcrWord) : bool :=
  match points word with
  | None => true
  | Some pts => (length pts <? 4)%nat
  end.

Definition box_of (index : nat) (word : OcrWord) : OcrBoundingBox :=
  match points word with
  | None => mkBox index (Num 0) (Num 0) (Num 0) (Num 0) (content word)
  | Some pts =>
      if (length pts <? 4)%nat
      then mkBox index (Num 0) (Num 0) (Num 0) (Num 0) (content word)
      else
        let minX := math_min (map (fun p => p !! 0%nat) pts) in
        let minY := math_min (map (fun p => p !! 1%nat) pts) in
        let maxX := math_max (map (fun p => p !! 0%nat) pts) in
        let maxY := math_max (map (fun p => p !! 1%nat) pts) in
        mkBox index minY minX (num_sub maxX minX) (num_sub maxY minY) (content word)
  end.

(** The words drawn for a page index. *)
Definition wordsForBoxes (st : State) (targetPageIndex : Z) : list OcrWord :=
  let currentPage := targetPageIndex + 1 in
  if isMultipage st then List.filter (on_page currentPage) (ocrWords st)
  else ocrWords st.

Definition updateBoundingBoxesForCurrentPage (pageIndex : option Z) (st : State) : State :=
  let targetPageIndex := default (currentPageIndex st) pageIndex in
  setBoundingBoxes (imap box_of (wordsForBoxes st targetPageIndex)) st.

(** *** Page navigation, lines 151-175 *)

Definition goToPreviousPage (st : State) : State :=
  if 0 <? currentPageIndex st then
    let newIndex := currentPageIndex st - 1 in
    setSelectedIndex None
      (updateBoundingBoxesForCurrentPage (Some newIndex)
         (setImageSrc (url_at (imageUrls st) newIndex)
            (setCurrentPageIndex newIndex st)))
  else st.

Definition goToNextPage (st : State) : State :=
  if currentPageIndex st <? totalPages st - 1 then
    let newIndex := currentPageIndex st + 1 in
    setSelectedIndex None
      (updateBoundingBoxesForCurrentPage (Some newIndex)
         (setImageSrc (url_at (imageUrls st) newIndex)
            (setCurrentPageIndex newIndex st)))
  else st.

(** *** Field highlighting, lines 191-253 and 636-646 *)

(** [word.page === targetPage || (!word.page && targetPage === 1)]. *)
Definition same_page (targetPage : Z) (word : OcrWord) : bool :=
  bool_decide (page word = Some targetPage)
  || (match page word with
      | None | Some 0 => true
      | Some _ => false
      end && (targetPage =? 1)).

(** [pageWord.content === word.content &&
     JSON.stringify(pageWord.points) === JSON.stringify(word.points)];
    on arrays of integers, and on [undefined], [JSON.stringify] is
    injective. *)
Definition same_token (word pageWord : OcrWord) : bool :=
  String.eqb (content pageWord) (content word)
  && bool_decide (points pageWord = points word).

(** [targetWord.page || 1]. *)
Definition page_or_1 (word : OcrWord) : Z :=
  match page word with
  | None | Some 0 => 1
  | Some p => p
  end.

(** The tokens against which a page-relative index is computed. *)
Definition currentPageWords (st : State) (targetPage : Z) : list OcrWord :=
  if isMultipage st then List.filter (same_page targetPage) (ocrWords st)
  else ocrWords st.

(** [highlightWordsOnCurrentPage].  [wordIndices.filter] exists only on
    arrays: any other value raises a [TypeError]. *)
Definition highlightWordsOnCurrentPage
    (fieldPath : string) (targetPage : Z) (st : State) : outcome State :=
  match or_empty (getNestedValue (mapping st) fieldPath) with
  | MArr wordIndices =>
      let currentPageWordIndices :=
        List.filter
          (fun index =>
             match word_at (ocrWords st) (Some index) with
             | Some word => same_page targetPage word
             | None => false
             end)
          wordIndices in
      match currentPageWordIndices with
      | [] => Returned st
      | _ :: _ =>
          let pageWords := currentPageWords st targetPage in
          let relativeIndices :=
            omap
              (fun globalIndex =>
                 word ← word_at (ocrWords st) (Some globalIndex);
                 findIndex (same_token word) pageWords)
              currentPageWordIndices in
          match relativeIndices with
          | first :: _ => Returned (setSelectedIndex (Some first) st)
          | [] => Returned st
          end
      end
  | _ => Thrown
  end.

(** The callback handed to [setTimeout(..., 100)] on a page switch. *)
Inductive Deferred : Type :=
| HighlightLater (fieldPath : string) (targetPage : Z).

(** [handleExtractedFieldClick]: the next state and the timer callbacks
    it scheduled. *)
Definition handleExtractedFieldClick
    (fieldPath : string) (st : State) : outcome (State * list Deferred) :=
  let wordIndices := or_empty (getNestedValue (mapping st) fieldPath) in
  if length_is_zero wordIndices then Returned (st, [])
  else
    let firstWordIndex := get_prop wordIndices "0" in
    match word_at (ocrWords st) firstWordIndex with
    | None => Returned (st, [])
    | Some targetWord =>
        let targetPage := page_or_1 targetWord in
        let targetPageIndex := targetPage - 1 in
        if negb (targetPageIndex =? currentPageIndex st) then
          Returned
            (setImageSrc (url_at (imageUrls st) targetPageIndex)
               (setCurrentPageIndex targetPageIndex st),
             [HighlightLater fieldPath targetPage])
        else
          match highlightWordsOnCurrentPage fieldPath targetPage st with
          | Returned st' => Returned (st', [])
          | Thrown => Thrown
          end
    end.

(** [highlightField]. *)
Definition highlightField
    (fieldPath : string) (stayOnExtractionView : bool) (st : State)
  : outcome (State * list Deferred) :=
  match handleExtractedFieldClick fieldPath st with
  | Returned (st', later) =>
      Returned (if stayOnExtractionView then st' else setActiveView ViewOcr st',
                later)
  | Thrown => Thrown
  end.

(** A timer callback runs on the state reached when it fires.  Of that
    state it reads [mapping], [ocrWords] and [isMultipage], which the click
    that scheduled it does not change. *)
Definition fire (d : Deferred) (st : State) : outcome State :=
  match d with
  | HighlightLater fieldPath targetPage =>
      highlightWordsOnCurrentPage fieldPath targetPage st
  end.

Fixpoint fire_all (later : list Deferred) (st : State) : outcome State :=
  match later with
  | [] => Returned st
  | d :: rest =>
      match fire d st with
      | Returned st' => fire_all rest st'
      | Thrown => Thrown
      end
  end.

(** [highlightField] followed by the callbacks it scheduled, nothing else
    happening in between. *)
Definition highlightField_settled
    (fieldPath : string) (stayOnExtractionView : bool) (st : State) : outcome State :=
  match highlightField fieldPath stayOnExtractionView st with
  | Returned (st', later) => fire_all later st'
  | Thrown => Thrown
  end.

(** Following the glossary: the position of token [i] within the tokens
    of page [p], that is, how many tokens of page [p] come before it. *)
Definition page_relative_index (ocrWords : list OcrWord) (p : Z) (i : nat) : nat :=
  length (List.filter (same_page p) (take i ocrWords)).

(** *** Heuristic mapping, lines 404-476 *)

Definition normalize (s : string) : string := toLowerCase (strip_spaces s).

(** [findMatchingIndices]; the caller passes a string. *)
Definition findMatchingIndices (ocrWords : list OcrWord) (value : string) : list Z :=
  if String.eqb value "" || (length ocrWords =? 0)%nat then []
  else
    let normalizedValue := normalize value in
    List.filter (fun index => negb (index =? -1))
      (imap
         (fun index result =>
            if includes (normalize (content result)) normalizedValue
            then Z.of_nat index else -1)
         ocrWords).

(** An object with one empty index array per listed field. *)
Definition emptyColumns (columns : list Field) : mval :=
  MObj (fold_left (fun acc column => obj_set acc (name column) (MArr [])) columns []).

(** The value that the body of [appFields.forEach] stores under
    [field.name]. *)
Definition mappingFor
    (extractedInfo : info) (ocrWords : list OcrWord) (field : Field) : mval :=
  if String.eqb (type field) "string" then MArr []
  else
    match String.eqb (type field) "map", fields field with
    | true, Some subFields => emptyColumns subFields
    | _, _ =>
        match String.eqb (type field) "list", items field with
        | true, Some (itemType, itemFields) =>
            match String.eqb itemType "map", itemFields with
            | true, Some columns =>
                match read extractedInfo (name field) with
                | VArr (row :: rows) =>
                    MArr (map (fun _ => emptyColumns columns) (row :: rows))
                | _ => MArr []
                end
            | _, _ => MArr []
            end
        | _, _ =>
            match read extractedInfo (name field) with
            | VStr fieldValue =>
                if negb (String.eqb fieldValue "")
                then MArr (map MNum (findMatchingIndices ocrWords fieldValue))
                else MArr []
            | _ => MArr []
            end
        end
    end.

(** [generateSimpleMapping]: the object handed to [setMapping]. *)
Definition generateSimpleMapping
    (appFields : list Field) (extractedInfo : info) (ocrWords : list OcrWord) : mval :=
  MObj
    (fold_left
       (fun newMapping field =>
          obj_set newMapping (name field) (mappingFor extractedInfo ocrWords field))
       appFields []).

Definition setMapping (m : mval) (st : State) : State :=
  mkState (imageSrc st) (imageUrls st) (currentPageIndex st) (totalPages st)
    (isMultipage st) (ocrWords st) (boundingBoxes st) (selectedIndex st) m
    (activeView st).


End Review.

(** ** Extraction job polling, lines 52-105 and 478-633

    [OcrResult] is a function component: every render runs its body again,
    so every render has its own [let statusCheckTimer = null] and its own
    constants [pollingAttemptCount] and [extractionStatus].  The handlers
    and interval callbacks created during a render keep reading that
    render's constants and share that render's [statusCheckTimer]. *)

Module Poller.

Inductive Status : Type := Pending | Processing | Completed | Failed.

Definition MAX_POLLING_ATTEMPTS : nat := 20.

(** What one render's closures see. *)
Record Scope : Type := mkScope {
  seen_pollingAttemptCount : nat;
  seen_extractionStatus : Status;
  statusCheckTimer : option nat
}.

(** Which [setInterval] call made a timer: line 511 or line 89. *)
Inductive Origin : Type := FromStartPolling | FromRerunOcr.

Record Timer : Type := mkTimer {
  timer_id : nat;
  timer_origin : Origin;
  timer_scope : nat
}.

(** The state cells [extractionStatus] and [pollingAttemptCount], the
    renders so far, and the intervals that are live in the browser.  The
    extraction payload, toasts and [isRerunning] are left out. *)
Record State : Type := mkState {
  extractionStatus : Status;
  pollingAttemptCount : nat;
  scopes : list Scope;
  timers : list Timer;
  next_timer_id : nat
}.

Definition setExtractionStatus (s : Status) (st : State) : State :=
  mkState s (pollingAttemptCount st) (scopes st) (timers st) (next_timer_id st).

Definition setPollingAttemptCount (f : nat -> nat) (st : State) : State :=
  mkState (extractionStatus st) (f (pollingAttemptCount st)) (scopes st) (timers st)
    (next_timer_id st).

(** The first render of a freshly mounted page. *)
Definition mounted : State :=
  mkState Pending 0 [mkScope 0 Pending None] [] 0.

(** A render: a new scope over the current state. *)
Definition render (st : State) : State :=
  mkState (extractionStatus st) (pollingAttemptCount st)
    (scopes st ++ [mkScope (pollingAttemptCount st) (extractionStatus st) None])
    (timers st) (next_timer_id st).

Definition latest_scope (st : State) : nat := (length (scopes st) - 1)%nat.

Definition handle (r : nat) (st : State) : option nat :=
  sc ← scopes st !! r; statusCheckTimer sc.

(** [statusCheckTimer = v] in render [r]. *)
Definition assign_handle (r : nat) (v : option nat) (st : State) : State :=
  mkState (extractionStatus st) (pollingAttemptCount st)
    (alter (fun sc => mkScope (seen_pollingAttemptCount sc) (seen_extractionStatus sc) v)
       r (scopes st))
    (timers st) (next_timer_id st).

Definition clearInterval (t : nat) (st : State) : State :=
  mkState (extractionStatus st) (pollingAttemptCount st) (scopes st)
    (List.filter (fun tm => negb (timer_id tm =? t)%nat) (timers st))
    (next_timer_id st).

Definition setInterval (o : Origin) (r : nat) (st : State) : nat * State :=
  (next_timer_id st,
   mkState (extractionStatus st) (pollingAttemptCount st) (scopes st)
     (timers st ++ [mkTimer (next_timer_id st) o r]) (S (next_timer_id st))).

(** [if (statusCheckTimer) { clearInterval(statusCheckTimer);
     statusCheckTimer = null; }]. *)
Definition stopPolling (r : nat) (st : State) : State :=
  match handle r st with
  | Some t => assign_handle r None (clearInterval t st)
  | None => st
  end.

(** [startPolling], lines 506-541 (the callback is [tick] below). *)
Definition startPolling (r : nat) (st : State) : State :=
  let st1 :=
    match handle r st with
    | Some t => clearInterval t st
    | None => st
    end in
  let '(t, st2) := setInterval FromStartPolling r st1 in
  assign_handle r (Some t) st2.

(** Answer of [POST /ocr/extract/:id]. *)
Inductive PostReply : Type := PostSuccess | PostOther | PostThrows.

(** [startExtraction], lines 479-503. *)
Definition startExtraction (r : nat) (reply : PostReply) (st : State) : State :=
  let st1 := setPollingAttemptCount (fun _ => 0%nat) (setExtractionStatus Processing st) in
  match reply with
  | PostSuccess => startPolling r st1
  | PostOther | PostThrows => setExtractionStatus Failed st1
  end.

(** [rerunOcr], lines 76-105; [posted] tells whether [POST /ocr/start/:id]
    went through. *)
Definition rerunOcr (r : nat) (posted : bool) (st : State) : State :=
  if posted then
    let st1 := setPollingAttemptCount (fun _ => 0%nat) (setExtractionStatus Processing st) in
    let '(t, st2) := setInterval FromRerunOcr r st1 in
    assign_handle r (Some t) st2
  else st.

(** Answer of [GET /ocr/extract/:id], read by [fetchExtractionInfo]. *)
Inductive FetchReply : Type :=
| FetchCompleted
| FetchFailed
| FetchOther
| FetchThrows.

(** [fetchExtractionInfo], lines 354-401, as far as status and timer go. *)
Definition fetchExtractionInfo (r : nat) (reply : FetchReply) (st : State) : State :=
  match reply with
  | FetchCompleted => stopPolling r (setExtractionStatus Completed st)
  | FetchFailed => setExtractionStatus Failed st
  | FetchOther => setExtractionStatus Processing st
  | FetchThrows => st
  end.

(** Answer of [GET /ocr/extract/status/:id]. *)
Inductive StatusReply : Type :=
| StatusCompleted (refetch : FetchReply)
| StatusFailed
| StatusOther
| StatusThrows.

Definition terminal (reply : StatusReply) : bool :=
  match reply with
  | StatusCompleted _ | StatusFailed => true
  | StatusOther | StatusThrows => false
  end.

(** [checkExtractionStatus], lines 601-633. *)
Definition checkExtractionStatus (r : nat) (reply : StatusReply) (st : State)
  : outcome State :=
  match reply with
  | StatusCompleted refetch =>
      Returned
        (stopPolling r (fetchExtractionInfo r refetch (setExtractionStatus Completed st)))
  | StatusFailed => Returned (stopPolling r (setExtractionStatus Failed st))
  | StatusOther => Returned (setExtractionStatus Processing st)
  | StatusThrows => Thrown
  end.

(** The interval callback of [startPolling], run in the scope [sc] of the
    render that created it. *)
Definition pollTick (r : nat) (sc : Scope) (reply : StatusReply) (st : State) : State :=
  let st1 := setPollingAttemptCount S st in
  match checkExtractionStatus r reply st1 with
  | Returned st2 =>
      if (MAX_POLLING_ATTEMPTS <=? seen_pollingAttemptCount sc)%nat
         && match seen_extractionStatus sc with Processing => true | _ => false end
      then stopPolling r st2
      else st2
  | Thrown =>
      if (MAX_POLLING_ATTEMPTS <=? seen_pollingAttemptCount sc)%nat
      then stopPolling r (setExtractionStatus Failed st1)
      else st1
  end.

(** The interval callback of [rerunOcr]. *)
Definition rerunTick (r : nat) (reply : StatusReply) (st : State) : State :=
  match checkExtractionStatus r reply st with
  | Returned st1 => setPollingAttemptCount S st1
  | Thrown => st
  end.

(** Timer [t] fires; a cleared timer does not. *)
Definition tick (t : nat) (reply : StatusReply) (st : State) : State :=
  match find (fun tm => (timer_id tm =? t)%nat) (timers st) with
  | Some tm =>
      match timer_origin tm, scopes st !! timer_scope tm with
      | FromStartPolling, Some sc => pollTick (timer_scope tm) sc reply st
      | FromRerunOcr, Some _ => rerunTick (timer_scope tm) reply st
      | _, None => st
      end
  | None => st
  end.

(** The same answer on [n] consecutive ticks of timer [t]. *)
Fixpoint ticks (n : nat) (t : nat) (reply : StatusReply) (st : State) : State :=
  match n with
  | O => st
  | S n' => ticks n' t reply (tick t reply st)
  end.

(** The cleanup of the mount effect, lines 776-788, in the scope of the
    render that registered it. *)
Definition unmount (r : nat) (st : State) : State := stopPolling r st.

Definition live (t : nat) (st : State) : Prop :=
  exists tm, tm ∈ timers st /\ timer_id tm = t.

End Poller.

(** ** Editing extracted values: [ExtractedInfoDisplay]

    The parent page owns [extractedInfo] (the live value state, also read by
    highlighting and by the read-only rendering); the component owns
    [editMode], [editedInfo] and [originalInfo]. *)

Module EditSession.

Record Session : Type := mkSession {
  extractedInfo : info;
  editMode : bool;
  editedInfo : info;
  originalInfo : info;
  (** Calls of [onSave] scheduled so far, each with the [extractedInfo]
      that the scheduled closure posts. *)
  saveRequests : list info
}.

Definition setEditedInfo (e : info) (s : Session) : Session :=
  mkSession (extractedInfo s) (editMode s) e (originalInfo s) (saveRequests s).

Definition setOriginalInfo (o : info) (s : Session) : Session :=
  mkSession (extractedInfo s) (editMode s) (editedInfo s) o (saveRequests s).

Definition setEditMode (m : bool) (s : Session) : Session :=
  mkSession (extractedInfo s) m (editedInfo s) (originalInfo s) (saveRequests s).

(** [onUpdateExtractedInfo], that is [updateExtractedInfo] of the page. *)
Definition onUpdateExtractedInfo (i : info) (s : Session) : Session :=
  mkSession i (editMode s) (editedInfo s) (originalInfo s) (saveRequests s).

(** [setTimeout(() => onSave(), 100)]: [onSave] is the [saveExtractedInfo]
    of the page render that produced the component's props, and posts that
    render's [extractedInfo]. *)
Definition scheduleSave (posted : info) (s : Session) : Session :=
  mkSession (extractedInfo s) (editMode s) (editedInfo s) (originalInfo s)
    (saveRequests s ++ [posted]).

(** The component as mounted over a value tree, after its first effect. *)
Definition mounted (i : info) : Session := mkSession i false i i [].

(** The sync effect, lines 28-33. *)
Definition syncEffect (s : Session) : Session :=
  if editMode s then s
  else setOriginalInfo (extractedInfo s) (setEditedInfo (extractedInfo s) s).

(** [toggleEditMode], lines 36-49. *)
Definition toggleEditMode (s : Session) : Session :=
  if editMode s then
    setEditMode false (scheduleSave (extractedInfo s) (onUpdateExtractedInfo (editedInfo s) s))
  else setEditMode true s.

(** [cancelEdit], lines 52-55. *)
Definition cancelEdit (s : Session) : Session :=
  setEditMode false (setEditedInfo (originalInfo s) s).

(** [updateFieldValue], lines 58-68. *)
Definition updateFieldValue (fieldName : string) (value : ival) (s : Session) : Session :=
  let newEditedInfo := obj_set (editedInfo s) fieldName value in
  onUpdateExtractedInfo newEditedInfo (setEditedInfo newEditedInfo s).

(** [x || {}] and [x || []] keep a truthy [x]. *)
Definition or_else (fallback v : ival) : ival :=
  if Values.truthy v then v else fallback.

(** [updateMapFieldValue], lines 71-82. *)
Definition updateMapFieldValue
    (fieldName subFieldName : string) (value : ival) (s : Session) : Session :=
  let currentMap := or_else (VObj []) (read (editedInfo s) fieldName) in
  let updatedMap := obj_set (obj_spread currentMap) subFieldName value in
  setEditedInfo (obj_set (editedInfo s) fieldName (VObj updatedMap)) s.

(** [updateListItem], lines 85-93. *)
Definition updateListItem
    (fieldName : string) (itemIndex : nat) (itemValue : ival) (s : Session)
  : outcome Session :=
  match arr_spread (or_else (VArr []) (read (editedInfo s) fieldName)) with
  | Returned currentList =>
      Returned
        (setEditedInfo
           (obj_set (editedInfo s) fieldName (VArr (arr_set currentList itemIndex itemValue)))
           s)
  | Thrown => Thrown
  end.

(** [updateListItemProperty], lines 96-111. *)
Definition updateListItemProperty
    (fieldName : string) (itemIndex : nat) (propertyName : string) (value : ival)
    (s : Session) : outcome Session :=
  match arr_spread (or_else (VArr []) (read (editedInfo s) fieldName)) with
  | Returned currentList =>
      let item := default VUndef (currentList !! itemIndex) in
      let currentList1 :=
        if Values.truthy item then currentList else arr_set currentList itemIndex (VObj []) in
      let item1 := default VUndef (currentList1 !! itemIndex) in
      let currentList2 :=
        arr_set currentList1 itemIndex
          (VObj (obj_set (obj_spread item1) propertyName value)) in
      Returned (setEditedInfo (obj_set (editedInfo s) fieldName (VArr currentList2)) s)
  | Thrown => Thrown
  end.

(** [listData] of [renderListField] in edit mode. *)
Definition listData (fieldName : string) (s : Session) : ival :=
  or_else (VArr []) (read (editedInfo s) fieldName).

(** The row delete button, lines 290-294. *)
Definition removeRow (fieldName : string) (itemIndex : nat) (s : Session)
  : outcome Session :=
  match arr_spread (listData fieldName s) with
  | Returned updatedList =>
      Returned (updateFieldValue fieldName (VArr (splice1 updatedList itemIndex)) s)
  | Thrown => Thrown
  end.

(** The row add button, lines 310-316. *)
Definition addRow (fieldName : string) (columns : list Field) (s : Session)
  : outcome Session :=
  let newItem :=
    VObj (fold_left (fun acc column => obj_set acc (name column) (VStr "")) columns []) in
  match arr_spread (listData fieldName s) with
  | Returned rows => Returned (updateFieldValue fieldName (VArr (rows ++ [newItem])) s)
  | Thrown => Thrown
  end.

(** The item add button of a plain list, lines 350-352. *)
Definition addItem (fieldName : string) (s : Session) : outcome Session :=
  match arr_spread (listData fieldName s) with
  | Returned entries =>
      Returned (updateFieldValue fieldName (VArr (entries ++ [VStr ""])) s)
  | Thrown => Thrown
  end.

(** What the user does in the component. *)
Inductive Event : Type :=
| ToggleEditMode
| CancelEdit
| UpdateFieldValue (fieldName : string) (value : ival)
| UpdateMapFieldValue (fieldName subFieldName : string) (value : ival)
| UpdateListItem (fieldName : string) (itemIndex : nat) (itemValue : ival)
| UpdateListItemProperty (fieldName : string) (itemIndex : nat)
    (propertyName : string) (value : ival)
| RemoveRow (fieldName : string) (itemIndex : nat)
| AddRow (fieldName : string) (columns : list Field)
| AddItem (fieldName : string).

Definition handler (ev : Event) (s : Session) : outcome Session :=
  match ev with
  | ToggleEditMode => Returned (toggleEditMode s)
  | CancelEdit => Returned (cancelEdit s)
  | UpdateFieldValue f v => Returned (updateFieldValue f v s)
  | UpdateMapFieldValue f k v => Returned (updateMapFieldValue f k v s)
  | UpdateListItem f i v => updateListItem f i v s
  | UpdateListItemProperty f i k v => updateListItemProperty f i k v s
  | RemoveRow f i => removeRow f i s
  | AddRow f cols => addRow f cols s
  | AddItem f => addItem f s
  end.

(** Whether the handler gave the page a new [extractedInfo] object. *)
Definition notifiesPage (ev : Event) (s : Session) : bool :=
  match ev with
  | ToggleEditMode => editMode s
  | UpdateFieldValue _ _ | RemoveRow _ _ | AddRow _ _ | AddItem _ => true
  | CancelEdit | UpdateMapFieldValue _ _ _ | UpdateListItem _ _ _
  | UpdateListItemProperty _ _ _ _ => false
  end.

(** One event: the handler, then the sync effect when one of its
    dependencies [extractedInfo], [editMode] changed.  A handler that
    raises has set no state. *)
Definition dispatch (ev : Event) (s : Session) : Session :=
  match handler ev s with
  | Returned s' =>
      if notifiesPage ev s || negb (Bool.eqb (editMode s) (editMode s'))
      then syncEffect s' else s'
  | Thrown => s
  end.

Definition run (evs : list Event) (s : Session) : Session :=
  fold_left (fun acc ev => dispatch ev acc) evs s.

End EditSession.

(** ** Concrete documents used below *)

Module Fixtures.

Import Review.

Definition quad (x y : Z) : option (list (list Z)) :=
  Some [[x; y]; [x + 40; y]; [x + 40; y + 12]; [x; y + 12]].

(** Two pages: tokens 0-4 on page 1, tokens 5-7 on page 2. *)
Definition twoPageWords : list OcrWord :=
  [ mkWord "Invoice" (quad 10 10) (Some 1);
    mkWord "ACME" (quad 10 30) (Some 1);
    mkWord "Corp." (quad 60 30) (Some 1);
    mkWord "Date" (quad 10 50) (Some 1);
    mkWord "2024-01-31" (quad 60 50) (Some 1);
    mkWord "No." (quad 10 10) (Some 2);
    mkWord "INV-001" (quad 60 10) (Some 2);
    mkWord "Total" (quad 10 30) (Some 2) ].

Definition twoPageUrls : list PageUrl :=
  [mkPageUrl 1 "page-1.png"; mkPageUrl 2 "page-2.png"].

Definition invoiceMapping : mval :=
  MObj [("invoice_number", MArr [MNum 6]); ("vendor", MArr [])].

(** Viewing page 1 of the two-page document. *)
Definition viewingPage1 : State :=
  mkState "page-1.png" twoPageUrls 0 2 true twoPageWords [] None invoiceMapping
    ViewExtraction.

(** The same document, but tokens 5 and 6 print the same text in the same
    place (a stamp recognised twice). *)
Definition stampedTwiceWords : list OcrWord :=
  <[5%nat := mkWord "INV-001" (quad 60 10) (Some 2)]> twoPageWords.

Definition stampedTwice : State :=
  mkState "page-1.png" twoPageUrls 0 2 true stampedTwiceWords [] (Some 3%nat)
    invoiceMapping ViewExtraction.

(** A token without geometry and one with three vertices. *)
Definition brokenWords : list OcrWord :=
  [ mkWord "stain" None (Some 1);
    mkWord "fold" (Some [[0; 0]; [5; 0]; [5; 5]]) (Some 1);
    mkWord "Total" (quad 10 30) (Some 1) ].

Definition brokenPage : State :=
  mkState "scan.png" [mkPageUrl 1 "scan.png"] 0 1 false brokenWords [] None
    (MObj []) ViewExtraction.

Definition vendorWords : list OcrWord :=
  [ mkWord "Invoice" (quad 10 10) None;
    mkWord "Acme Corp." (quad 10 30) None ].

(** Values for the edit session. *)
Definition invoiceInfo : info :=
  [ ("invoice_number", VStr "A1");
    ("shipper", VObj [("name", VStr "North")]);
    ("lines", VArr [VObj [("item", VStr "bolt")]]) ].

(** The extraction was started on a fresh page and polled twenty times
    without a terminal answer; the page re-rendered and the user started
    the extraction again from the OCR view. *)
Definition restartedAtBudget : Poller.State :=
  Poller.startExtraction 1 Poller.PostSuccess
    (Poller.render
       (Poller.ticks 20 0 Poller.StatusOther
          (Poller.startExtraction 0 Poller.PostSuccess Poller.mounted))).

(** Edit mode entered over [invoiceInfo]. *)
Definition editingInvoice : EditSession.Session :=
  EditSession.dispatch EditSession.ToggleEditMode (EditSession.mounted invoiceInfo).

End Fixtures.

(** ** Statements of the design document

    Each definition below words one sentence of the design document over the
    embedding above. *)

Module Design.

Import Review.

(** Page navigation invariant. *)
Definition in_bounds (st : State) : Prop :=
  0 <= currentPageIndex st <= totalPages st - 1.

(** "After highlightField(path) resolves to a Token on page p [other than
    the page shown], the active page equals p" and the token's
    page-relative position is selected. *)
Definition highlight_selects_the_token_itself : Prop :=
  forall (st : State) (fieldPath : string) (i : nat) (rest : list mval) (w : OcrWord),
    getNestedValue (mapping st) fieldPath = Some (MArr (MNum (Z.of_nat i) :: rest)) ->
    ocrWords st !! i = Some w ->
    page_or_1 w - 1 <> currentPageIndex st ->
    exists st',
      highlightField_settled fieldPath true st = Returned st'
      /\ currentPageIndex st' = page_or_1 w - 1
      /\ selectedIndex st' = Some (page_relative_index (ocrWords st) (page_or_1 w) i).





(** "Repeated failure up to the budget stops polling without forcing
    FAILED": a tick whose status query raises never turns a job that has
    not failed into a failed one. *)
Definition failing_tick_never_fails_the_job : Prop :=
  forall (st : Poller.State) (t : nat),
    Poller.extractionStatus st <> Poller.Failed ->
    Poller.extractionStatus (Poller.tick t Poller.StatusThrows st) <> Poller.Failed.

End Design.

(** ** The rest of the review page *)

Module Page.

Import Review.

(** [parts.join('.')], the inverse direction of [split('.')]. *)
Fixpoint join_dot (parts : list string) : string :=
  match parts with
  | [] => ""
  | [part] => part
  | part :: rest => part ++ "." ++ join_dot rest
  end.

(** The text has no ['.']. *)
Fixpoint dot_free (s : string) : bool :=
  match s with
  | EmptyString => true
  | String c rest => negb (Ascii.eqb c "."%char) && dot_free rest
  end.

(** *** Table cells, lines 649-751 *)

(** [highlightTableCellOnPage]. *)
Definition highlightTableCellOnPage
    (cellIndices : list mval) (targetPage : Z) (st : State) : State :=
  match word_at (ocrWords st) (cellIndices !! 0%nat) with
  | None => st
  | Some targetWord =>
      match findIndex (same_token targetWord) (currentPageWords st targetPage) with
      | Some relativeIndex => setSelectedIndex (Some relativeIndex) st
      | None => st
      end
  end.

(** The callback that [highlightTableCell] hands to [setTimeout]. *)
Inductive CellDeferred : Type :=
| HighlightCellLater (cellIndices : list mval) (targetPage : Z).

(** One of the two blocks of [highlightTableCell] (lines 681-714 and
    717-750 have the same text): [Some] when the block ends in [return],
    [None] when control falls through. *)
Definition cellBlock
    (fieldName : string) (rowIndex : nat) (columnName : string) (st : State)
  : option (State * list CellDeferred) :=
  match get_prop (mapping st) fieldName with
  | Some (MArr rows) =>
      match rows !! rowIndex with
      | Some (MObj columns) =>
          match obj_get columns columnName with
          | Some (MArr (firstGlobalIndex :: others)) =>
              let cellIndices := firstGlobalIndex :: others in
              match word_at (ocrWords st) (Some firstGlobalIndex) with
              | Some targetWord =>
                  let targetPage := page_or_1 targetWord in
                  let targetPageIndex := targetPage - 1 in
                  if negb (targetPageIndex =? currentPageIndex st) then
                    Some (setImageSrc (url_at (imageUrls st) targetPageIndex)
                            (setCurrentPageIndex targetPageIndex st),
                          [HighlightCellLater cellIndices targetPage])
                  else Some (highlightTableCellOnPage cellIndices targetPage st, [])
              | None => Some (st, [])
              end
          | _ => None
          end
      | _ => None
      end
  | _ => None
  end.

(** [highlightTableCell]: the list-shaped block, then the legacy block. *)
Definition highlightTableCell
    (fieldName : string) (rowIndex : nat) (columnName : string) (st : State)
  : State * list CellDeferred :=
  match cellBlock fieldName rowIndex columnName st with
  | Some result => result
  | None =>
      match cellBlock fieldName rowIndex columnName st with
      | Some result => result
      | None => (st, [])
      end
  end.

Definition fireCell (d : CellDeferred) (st : State) : State :=
  match d with
  | HighlightCellLater cellIndices targetPage =>
      highlightTableCellOnPage cellIndices targetPage st
  end.

(** [highlightTableCell] followed by the callback it scheduled. *)
Definition highlightTableCell_settled
    (fieldName : string) (rowIndex : nat) (columnName : string) (st : State) : State :=
  let '(st', later) := highlightTableCell fieldName rowIndex columnName st in
  fold_left (fun acc d => fireCell d acc) later st'.

(** [highlightField] followed by its callback, keeping the state reached
    when one of them raises: an exception undoes no [setState]. *)
Definition after_highlightField
    (fieldPath : string) (stayOnExtractionView : bool) (st : State) : State :=
  match highlightField fieldPath stayOnExtractionView st with
  | Returned (st', later) =>
      match fire_all later st' with
      | Returned st'' => st''
      | Thrown => st'
      end
  | Thrown => st
  end.

(** [handleTextBoxClick], lines 766-768, also [onSelectBox]. *)
Definition handleTextBoxClick (index : nat) (st : State) : State :=
  setSelectedIndex (Some index) st.

(** [changeView], lines 178-181. *)
Definition changeView (view : View) (st : State) : State := setActiveView view st.

(** *** Loading the page images, lines 279-313 *)

Definition setIsMultipage (b : bool) (st : State) : State :=
  mkState (imageSrc st) (imageUrls st) (currentPageIndex st) (totalPages st) b
    (ocrWords st) (boundingBoxes st) (selectedIndex st) (mapping st) (activeView st).

Definition setTotalPages (n : Z) (st : State) : State :=
  mkState (imageSrc st) (imageUrls st) (currentPageIndex st) n (isMultipage st)
    (ocrWords st) (boundingBoxes st) (selectedIndex st) (mapping st) (activeView st).

Definition setImageUrls (urls : list PageUrl) (st : State) : State :=
  mkState (imageSrc st) urls (currentPageIndex st) (totalPages st) (isMultipage st)
    (ocrWords st) (boundingBoxes st) (selectedIndex st) (mapping st) (activeView st).

(** Answer of [GET /generate-presigned-download-url/:id]; [presigned_urls]
    is [None] when the field is missing. *)
Inductive UrlReply : Type :=
| UrlData (is_multipage : bool) (presigned_urls : option (list PageUrl))
    (total_pages : Z) (presigned_url : string)
| UrlThrows.

(** The image part of [fetchOcrResult] for document [id]. *)
Definition loadImages (id : string) (reply : UrlReply) (st : State) : State :=
  match reply with
  | UrlData true (Some presigned_urls) total_pages _ =>
      setCurrentPageIndex 0
        (setImageSrc (url_at presigned_urls 0)
           (setImageUrls presigned_urls
              (setTotalPages total_pages (setIsMultipage true st))))
  | UrlData _ _ _ presigned_url =>
      setCurrentPageIndex 0
        (setImageSrc presigned_url
           (setImageUrls [mkPageUrl 1 presigned_url]
              (setTotalPages 1 (setIsMultipage false st))))
  | UrlThrows =>
      setImageUrls [mkPageUrl 1 ("/image/" ++ id)]
        (setTotalPages 1 (setIsMultipage false (setImageSrc ("/image/" ++ id) st)))
  end.

(** What the user can do with the pages and the highlights. *)
Inductive Action : Type :=
| PreviousPage
| NextPage
| ClickField (fieldPath : string) (stayOnExtractionView : bool)
| ClickCell (fieldName : string) (rowIndex : nat) (columnName : string)
| ClickBox (index : nat)
| ChangeView (view : View).

Definition act (a : Action) (st : State) : State :=
  match a with
  | PreviousPage => goToPreviousPage st
  | NextPage => goToNextPage st
  | ClickField fieldPath stay => after_highlightField fieldPath stay st
  | ClickCell fieldName rowIndex columnName =>
      highlightTableCell_settled fieldName rowIndex columnName st
  | ClickBox index => handleTextBoxClick index st
  | ChangeView view => changeView view st
  end.

Definition acts (actions : list Action) (st : State) : State :=
  fold_left (fun acc a => act a acc) actions st.

(** The image on screen is the one listed for the current page index. *)
Definition shows_current_page (st : State) : Prop :=
  imageSrc st = url_at (imageUrls st) (currentPageIndex st).

(** Every token carries a page number other than 0. *)
Definition all_tagged (words : list OcrWord) : Prop :=
  forall w, w ∈ words -> exists p, page w = Some p /\ p <> 0.

(** Every vertex has an x and a y. *)
Definition full_vertices (pts : list (list Z)) : Prop :=
  forall p, p ∈ pts -> exists x y, p !! 0%nat = Some x /\ p !! 1%nat = Some y.

(** Every coordinate is an integer of magnitude at most 2^52: the
    differences the page takes of such doubles are exact. *)
Definition safe_coordinates (pts : list (list Z)) : Prop :=
  Forall (Forall (fun c => - 2 ^ 52 <= c <= 2 ^ 52)) pts.

(** The page switch made by a click on a field or a cell whose first token
    is on [targetPage]. *)
Definition switched (st : State) (targetPage : Z) : State :=
  setImageSrc (url_at (imageUrls st) (targetPage - 1))
    (setCurrentPageIndex (targetPage - 1) st).

End Page.

(** ** The HTTP client, [web/src/utils/api.ts] *)

Module Api.

(** [ensureHttps], lines 8-14. *)
Definition ensureHttps (url : string) : string :=
  if String.eqb url "" then ""
  else if starts_with "https://" url then url
  else "https://" ++ url.

Section AgentPolling.

(** The payload of a completed agent job is not inspected. *)
Variable Suggestions : Type.

(** Answer of [GET /ocr/agent/status/:jobId]. *)
Inductive AgentReply : Type :=
| AgentCompleted (suggestions : Suggestions)
| AgentFailed (error : string)
| AgentOther
| AgentThrows.

(** How [pollAgentJobStatus] ends: a value, an [Error] it made itself, or
    the rejection of the request. *)
Inductive AgentResult : Type :=
| AgentSuccess (suggestions : Suggestions)
| AgentError (message : string)
| AgentRequestFailed.

(** The [for] loop of [pollAgentJobStatus], lines 91-113, from [attempt]
    with [remaining = maxAttempts - attempt] rounds to go; [answers k] is
    the answer to query number [k].  The result comes with the number of
    queries sent and the number of waits of [interval] ms. *)
Fixpoint pollFrom (answers : nat -> AgentReply) (attempt remaining : nat)
  : AgentResult * nat * nat :=
  match remaining with
  | O => (AgentError "Agent processing timed out", 0%nat, 0%nat)
  | S remaining' =>
      match answers attempt with
      | AgentCompleted suggestions => (AgentSuccess suggestions, 1%nat, 0%nat)
      | AgentFailed error =>
          (AgentError (if String.eqb error "" then "Agent processing failed" else error),
           1%nat, 0%nat)
      | AgentThrows => (AgentRequestFailed, 1%nat, 0%nat)
      | AgentOther =>
          let '(result, queries, waits) := pollFrom answers (S attempt) remaining' in
          (result, S queries, S waits)
      end
  end.

Definition pollAgentJobStatus (answers : nat -> AgentReply) (maxAttempts : nat)
  : AgentResult * nat * nat :=
  pollFrom answers 0 maxAttempts.

(** What the loop makes of an answer that ends it. *)
Definition verdict (reply : AgentReply) : AgentResult :=
  match reply with
  | AgentCompleted suggestions => AgentSuccess suggestions
  | AgentFailed error =>
      AgentError (if String.eqb error "" then "Agent processing failed" else error)
  | AgentThrows => AgentRequestFailed
  | AgentOther => AgentError "Agent processing timed out"
  end.

End AgentPolling.

Arguments AgentCompleted {Suggestions} suggestions.
Arguments AgentFailed {Suggestions} error.
Arguments AgentOther {Suggestions}.
Arguments AgentThrows {Suggestions}.
Arguments AgentSuccess {Suggestions} suggestions.
Arguments AgentError {Suggestions} message.
Arguments AgentRequestFailed {Suggestions}.
Arguments pollFrom {Suggestions} answers attempt remaining.
Arguments pollAgentJobStatus {Suggestions} answers maxAttempts.
Arguments verdict {Suggestions} reply.

End Api.

(** ** Editing token text: [OcrResultEditor] *)

Module TokenEdit.

Import Review.

(** A row of the token table; [None] is an [undefined] entry, which an
    indexed write past the end leaves behind. *)
Definition row : Type := option OcrWord.

(** [rows[index] = v]. *)
Definition write_at (rows : list row) (index : nat) (v : row) : list row :=
  if (index <? length rows)%nat then <[index := v]> rows
  else (rows ++ replicate (index - length rows) None ++ [v])%list.

(** [{...rows[index], content}]: spreading [undefined] gives no property. *)
Definition with_content (r : row) (text : string) : OcrWord :=
  match r with
  | Some w => mkWord text (points w) (page w)
  | None => mkWord text None None
  end.

(** The page owns [ocrResults] (its [ocrWords]); the component owns the
    rest.  [posted] lists the bodies of [POST /ocr/edit/:id]. *)
Record Session : Type := mkSession {
  ocrResults : list row;
  editMode : bool;
  editedResults : list row;
  originalResults : list row;
  posted : list (list row)
}.

Definition mounted (words : list row) : Session := mkSession words false words words [].

(** The effect of lines 41-47, run after [editMode] or [ocrResults]
    changed. *)
Definition syncEffect (s : Session) : Session :=
  mkSession (ocrResults s) (editMode s) (ocrResults s)
    (if editMode s then originalResults s else ocrResults s) (posted s).

(** [updateOcrResults] of the page, lines 759-763: the new list is stored
    and handed as it is to [saveOcrEdit]. *)
Definition onUpdateOcrResults (updatedWords : list row) (s : Session) : Session :=
  mkSession updatedWords (editMode s) (editedResults s) (originalResults s)
    (posted s ++ [updatedWords]).

(** [toggleEditMode], lines 57-63. *)
Definition toggleEditMode (s : Session) : Session :=
  let s1 := if editMode s then onUpdateOcrResults (editedResults s) s else s in
  mkSession (ocrResults s1) (negb (editMode s)) (editedResults s1) (originalResults s1)
    (posted s1).

(** [cancelEdit], lines 66-69. *)
Definition cancelEdit (s : Session) : Session :=
  mkSession (ocrResults s) false (originalResults s) (originalResults s) (posted s).

(** [updateTextContent], lines 72-79. *)
Definition updateTextContent (index : nat) (text : string) (s : Session) : Session :=
  let updatedResults :=
    write_at (editedResults s) index
      (Some (with_content (default None (editedResults s !! index)) text)) in
  mkSession (ocrResults s) (editMode s) updatedResults (originalResults s) (posted s).

Inductive Event : Type :=
| ToggleEditMode
| CancelEdit
| UpdateTextContent (index : nat) (text : string).

Definition handler (ev : Event) (s : Session) : Session :=
  match ev with
  | ToggleEditMode => toggleEditMode s
  | CancelEdit => cancelEdit s
  | UpdateTextContent index text => updateTextContent index text s
  end.

(** One event: the handler, then the effect when [editMode] changed; the
    page receives a new token list only in a handler that also changes
    [editMode]. *)
Definition dispatch (ev : Event) (s : Session) : Session :=
  let s' := handler ev s in
  if negb (Bool.eqb (editMode s) (editMode s')) then syncEffect s' else s'.

Definition run (evs : list Event) (s : Session) : Session :=
  fold_left (fun acc ev => dispatch ev acc) evs s.

(** The text edits of a session, each aimed at an existing row. *)
Fixpoint typing (n : nat) (evs : list Event) : Prop :=
  match evs with
  | [] => True
  | UpdateTextContent index _ :: rest => (index < n)%nat /\ typing n rest
  | _ :: _ => False
  end.

(** Two rows sit on the same page with the same geometry. *)
Definition same_place (r r' : row) : Prop :=
  r ≫= page = r' ≫= page /\ r ≫= points = r' ≫= points.

End TokenEdit.

(** ** Steps of the poller and of the edit session *)

Module Steps.

Import Poller.

(** Everything that can happen to the poller. *)
Inductive Step : Type :=
| Render
| StartPolling (r : nat)
| StartExtraction (r : nat) (reply : PostReply)
| RerunOcr (r : nat) (posted : bool)
| Tick (t : nat) (reply : StatusReply)
| Unmount (r : nat).

Definition step (x : Step) (st : State) : State :=
  match x with
  | Render => render st
  | StartPolling r => startPolling r st
  | StartExtraction r reply => startExtraction r reply st
  | RerunOcr r posted => rerunOcr r posted st
  | Tick t reply => tick t reply st
  | Unmount r => unmount r st
  end.

Definition steps (xs : list Step) (st : State) : State :=
  fold_left (fun acc x => step x acc) xs st.

(** Live timers have distinct ids, all handed out already. *)
Definition ids_fresh (st : State) : Prop :=
  NoDup (map timer_id (timers st))
  /\ Forall (fun tm => (timer_id tm < next_timer_id st)%nat) (timers st).

(** A tick that neither completes nor fails the job. *)
Definition inconclusive (reply : StatusReply) : Prop :=
  reply = StatusOther \/ reply = StatusThrows.

(** The status query of the tick came back. *)
Definition answered (reply : StatusReply) : bool :=
  match reply with
  | StatusThrows => false
  | _ => true
  end.

(** Timer [t] ticks once per answer. *)
Definition tickEach (t : nat) (replies : list StatusReply) (st : State) : State :=
  fold_left (fun acc reply => tick t reply acc) replies st.

(** The status shown after the status endpoint said "completed" and the
    extraction was fetched again. *)
Definition statusAfterRefetch (refetch : FetchReply) : Status :=
  match refetch with
  | FetchCompleted | FetchThrows => Completed
  | FetchFailed => Failed
  | FetchOther => Processing
  end.

(** An edit that stays in the component's buffer. *)
Definition nestedEdit (ev : EditSession.Event) : Prop :=
  match ev with
  | EditSession.UpdateMapFieldValue _ _ _
  | EditSession.UpdateListItem _ _ _
  | EditSession.UpdateListItemProperty _ _ _ _ => True
  | _ => False
  end.

End Steps.

(** ** More concrete inputs *)

Module Samples.

Import Review.

(** A mapping with one table: two rows, columns [item] and [qty]. *)
Definition tableMapping : mval :=
  MObj [("lines",
         MArr [MObj [("item", MArr [MNum 1]); ("qty", MArr [])];
               MObj [("item", MArr [MNum 6; MNum 7]); ("qty", MArr [MNum 4])]])].

Definition tablePage : State :=
  mkState "page-1.png" Fixtures.twoPageUrls 0 2 true Fixtures.twoPageWords [] None
    tableMapping ViewExtraction.

(** A list field with map items, one value row, and the page state after
    [generateSimpleMapping] stored its result. *)
Definition linesField : Field :=
  mkField "lines" "Lines" "list" None
    (Some ("map", Some [mkField "item" "Item" "string" None None])).

Definition linesInfo : info := [("lines", VArr [VObj [("item", VStr "ACME")]])].

Definition heuristicTable : State :=
  setMapping (generateSimpleMapping [linesField] linesInfo Fixtures.twoPageWords)
    Fixtures.viewingPage1.

(** The invoice in edit mode with a sub-field edit pending: the buffer
    says "South", the live value still "North". *)
Definition pendingInvoice : EditSession.Session :=
  EditSession.dispatch
    (EditSession.UpdateMapFieldValue "shipper" "name" (Values.VStr "South"))
    Fixtures.editingInvoice.

End Samples.

(** * Properties *)

(** ** Built-ins *)

Module JsFacts.



Lemma findIndex_app_hit {A : Type} (p : A -> bool) (l1 l2 : list A) (x : A) :
  (forall y, y ∈ l1 -> p y = false) -> p x = true ->
  findIndex p (l1 ++ x :: l2) = Some (length l1).
Proof.
  intros Hmiss Hhit. induction l1 as [|y l1 IH]; simpl.
  - now rewrite Hhit.
  - rewrite (Hmiss y) by apply list_elem_of_here.
    rewrite IH; [reflexivity |].
    intros z Hz. apply Hmiss. now apply list_elem_of_further.
Qed.

Lemma findIndex_found {A : Type} (p : A -> bool) (l : list A) (x : A) :
  x ∈ l -> p x = true -> is_Some (findIndex p l).
Proof.
  intros Hin Hp. induction l as [|y l IH]; [now apply not_elem_of_nil in Hin |].
  simpl. destruct (p y) eqn:Hy; [now eexists |].
  apply elem_of_cons in Hin as [-> | Hin]; [congruence |].
  destruct (IH Hin) as [k ->]. now eexists.
Qed.

Lemma findIndex_hits {A : Type} (p : A -> bool) (l : list A) (k : nat) :
  findIndex p l = Some k -> exists x, l !! k = Some x /\ p x = true.
Proof.
  revert k. induction l as [|y l IH]; intros k; simpl; [discriminate |].
  destruct (p y) eqn:Hy.
  - intros [= <-]. now exists y.
  - destruct (findIndex p l) as [j|]; simpl; [| discriminate].
    intros [= <-]. now apply IH.
Qed.

Lemma obj_get_set {V : Type} (kv : list (string * V)) (key key' : string) (v : V) :
  obj_get (obj_set kv key v) key' =
  if String.eqb key key' then Some v else obj_get kv key'.
Proof.
  induction kv as [|[k w] kv IH]; simpl.
  - reflexivity.
  - destruct (String.eqb_spec k key) as [-> | Hk]; simpl.
    + now destruct (String.eqb key key').
    + rewrite IH. destruct (String.eqb_spec k key') as [-> | Hk'].
      * destruct (String.eqb_spec key key'); [congruence | reflexivity].
      * reflexivity.
Qed.

End JsFacts.

(** ** Bounding boxes and page navigation *)

Module BoxFacts.

Import Review Design.

Lemma box_of_degenerate (index : nat) (word : OcrWord) :
  degenerate word = true ->
  box_of index word = mkBox index (Num 0) (Num 0) (Num 0) (Num 0) (content word).
Proof.
  unfold degenerate, box_of. destruct (points word) as [pts|]; [| reflexivity].
  now intros ->.
Qed.

(** C7.  Whatever the token list and the page, a token drawn at position
    [i] whose geometry is absent or has fewer than four vertices gets the
    box with top, left, width and height all 0; the computation is a total
    function, so nothing is raised. *)
Theorem degenerate_token_gets_zero_box
    (st : State) (pageIndex : option Z) (i : nat) (word : OcrWord) :
  wordsForBoxes st (default (currentPageIndex st) pageIndex) !! i = Some word ->
  degenerate word = true ->
  boundingBoxes (updateBoundingBoxesForCurrentPage pageIndex st) !! i
  = Some (mkBox i (Num 0) (Num 0) (Num 0) (Num 0) (content word)).
Proof.
  intros Hword Hdeg. unfold updateBoundingBoxesForCurrentPage. simpl.
  rewrite list_lookup_imap, Hword. simpl. now rewrite box_of_degenerate.
Qed.

Lemma degenerate_token_gets_zero_box_witness :
  boundingBoxes (updateBoundingBoxesForCurrentPage None Fixtures.brokenPage) !! 1%nat
  = Some (mkBox 1 (Num 0) (Num 0) (Num 0) (Num 0) "fold").
Proof.
  apply (degenerate_token_gets_zero_box Fixtures.brokenPage None 1
           (mkWord "fold" (Some [[0; 0]; [5; 0]; [5; 5]]) (Some 1)));
    reflexivity.
Defined.

Lemma goToPreviousPage_index (st : State) :
  currentPageIndex (goToPreviousPage st)
  = if 0 <? currentPageIndex st then currentPageIndex st - 1 else currentPageIndex st.
Proof. unfold goToPreviousPage. now destruct (0 <? currentPageIndex st). Qed.

Lemma goToNextPage_index (st : State) :
  currentPageIndex (goToNextPage st)
  = if currentPageIndex st <? totalPages st - 1
    then currentPageIndex st + 1 else currentPageIndex st.
Proof.
  unfold goToNextPage. now destruct (currentPageIndex st <? totalPages st - 1).
Qed.

(** C10.  From a state with [0 <= currentPageIndex <= totalPages - 1], both
    navigation handlers keep the index within these bounds and leave
    [totalPages] alone; the previous-page handler steps back exactly when
    the index is positive, the next-page handler steps forward exactly when
    the index is below [totalPages - 1]; and whenever a handler moved the
    index, no token is selected afterwards. *)
Theorem navigation_keeps_bounds_and_clears_selection (st : State) :
  in_bounds st ->
  (in_bounds (goToPreviousPage st) /\ in_bounds (goToNextPage st))
  /\ (currentPageIndex (goToPreviousPage st)
      = if 0 <? currentPageIndex st
        then currentPageIndex st - 1 else currentPageIndex st)
  /\ (currentPageIndex (goToNextPage st)
      = if currentPageIndex st <? totalPages st - 1
        then currentPageIndex st + 1 else currentPageIndex st)
  /\ (currentPageIndex (goToPreviousPage st) <> currentPageIndex st ->
      selectedIndex (goToPreviousPage st) = None)
  /\ (currentPageIndex (goToNextPage st) <> currentPageIndex st ->
      selectedIndex (goToNextPage st) = None).
Proof.
  unfold in_bounds. intros Hb.
  split; [split |]; [| | split; [| split; [| split]]].
  - assert (totalPages (goToPreviousPage st) = totalPages st) as ->
        by (unfold goToPreviousPage; now destruct (0 <? currentPageIndex st)).
    rewrite goToPreviousPage_index.
    destruct (Z.ltb_spec 0 (currentPageIndex st)); lia.
  - assert (totalPages (goToNextPage st) = totalPages st) as ->
        by (unfold goToNextPage;
            now destruct (currentPageIndex st <? totalPages st - 1)).
    rewrite goToNextPage_index.
    destruct (Z.ltb_spec (currentPageIndex st) (totalPages st - 1)); lia.
  - apply goToPreviousPage_index.
  - apply goToNextPage_index.
  - unfold goToPreviousPage. destruct (0 <? currentPageIndex st); [reflexivity |].
    intros H. now destruct H.
  - unfold goToNextPage.
    destruct (currentPageIndex st <? totalPages st - 1); [reflexivity |].
    intros H. now destruct H.
Qed.

Lemma navigation_keeps_bounds_and_clears_selection_witness :
  currentPageIndex (goToNextPage Fixtures.stampedTwice) = 1
  /\ selectedIndex (goToNextPage Fixtures.stampedTwice) = None
  /\ in_bounds (goToNextPage Fixtures.stampedTwice).
Proof.
  assert (in_bounds Fixtures.stampedTwice) as Hb by (unfold in_bounds; simpl; lia).
  destruct (navigation_keeps_bounds_and_clears_selection Fixtures.stampedTwice Hb)
    as [[_ Hnext] [_ [Hidx [_ Hsel]]]].
  split; [exact Hidx | split; [| exact Hnext]].
  apply Hsel. rewrite Hidx. simpl. lia.
Defined.

End BoxFacts.

(** ** Field highlighting *)

Module HighlightFacts.

Import Review Design JsFacts.

(** C2.  When the mapping has nothing, [null] or an empty index array at
    the field path, [highlightField] returns normally, schedules no timer
    callback, and leaves the selection and the active page as they were. *)
Theorem highlightField_empty_is_noop
    (fieldPath : string) (stayOnExtractionView : bool) (st : State) :
  or_empty (getNestedValue (mapping st) fieldPath) = MArr [] ->
  exists st',
    highlightField fieldPath stayOnExtractionView st = Returned (st', [])
    /\ highlightField_settled fieldPath stayOnExtractionView st = Returned st'
    /\ selectedIndex st' = selectedIndex st
    /\ currentPageIndex st' = currentPageIndex st.
Proof.
  intros Hempty.
  assert (handleExtractedFieldClick fieldPath st = Returned (st, [])) as Hclick
      by (unfold handleExtractedFieldClick; now rewrite Hempty).
  exists (if stayOnExtractionView then st else setActiveView ViewOcr st).
  unfold highlightField_settled, highlightField. rewrite Hclick. simpl.
  now destruct stayOnExtractionView.
Qed.

Lemma highlightField_empty_is_noop_witness :
  exists st',
    highlightField "vendor" true Fixtures.stampedTwice = Returned (st', [])
    /\ highlightField_settled "vendor" true Fixtures.stampedTwice = Returned st'
    /\ selectedIndex st' = Some 3%nat
    /\ currentPageIndex st' = 0.
Proof.
  apply (highlightField_empty_is_noop "vendor" true Fixtures.stampedTwice).
  reflexivity.
Defined.

(** The same for a path that the mapping does not have at all. *)
Lemma highlightField_absent_is_noop :
  highlightField_settled "consignee.name" true Fixtures.stampedTwice
  = Returned Fixtures.stampedTwice.
Proof. reflexivity. Qed.

Lemma same_page_own (word : OcrWord) : same_page (page_or_1 word) word = true.
Proof.
  unfold same_page, page_or_1. destruct (page word) as [[|p|p]|]; simpl;
    try reflexivity; now rewrite bool_decide_eq_true_2.
Qed.

Lemma same_token_refl (word : OcrWord) : same_token word word = true.
Proof.
  unfold same_token. now rewrite String.eqb_refl, bool_decide_eq_true_2.
Qed.

Lemma to_index_of_nat (i : nat) : to_index (MNum (Z.of_nat i)) = Some i.
Proof.
  simpl. destruct (Z.leb_spec 0 (Z.of_nat i)); [| lia]. now rewrite Nat2Z.id.
Qed.

Lemma word_at_of_nat (words : list OcrWord) (i : nat) :
  word_at words (Some (MNum (Z.of_nat i))) = words !! i.
Proof.
  unfold word_at. cbn [mbind option_bind]. now rewrite to_index_of_nat.
Qed.

Lemma length_is_zero_cons (x : mval) (rest : list mval) :
  length_is_zero (MArr (x :: rest)) = false.
Proof. reflexivity. Qed.

(** When the token itself is on the list searched, the search ends on the
    first token that prints the same text in the same place. *)
Lemma findIndex_on_page
    (words : list OcrWord) (i : nat) (w : OcrWord) (p : Z) :
  words !! i = Some w ->
  same_page p w = true ->
  (forall j w', (j < i)%nat -> words !! j = Some w' ->
                same_page p w' = true -> same_token w w' = false) ->
  findIndex (same_token w) (List.filter (same_page p) words)
  = Some (page_relative_index words p i).
Proof.
  intros Hi Hp Hfirst. unfold page_relative_index.
  rewrite <- (take_drop_middle words i w Hi) at 1.
  rewrite List.filter_app. simpl. rewrite Hp.
  apply findIndex_app_hit; [| apply same_token_refl].
  intros y Hy. apply list_elem_of_In, List.filter_In in Hy as [Hy Hpy].
  apply list_elem_of_In, list_elem_of_lookup in Hy as [j Hj].
  apply (Hfirst j y); [| | exact Hpy].
  - apply lookup_lt_Some in Hj. rewrite length_take in Hj. lia.
  - rewrite lookup_take_Some in Hj. tauto.
Qed.

Lemma word_listed (st : State) (i : nat) (w : OcrWord) :
  ocrWords st !! i = Some w -> w ∈ currentPageWords st (page_or_1 w).
Proof.
  intros Hw. assert (w ∈ ocrWords st) as Hin by (apply list_elem_of_lookup; eauto).
  unfold currentPageWords. destruct (isMultipage st); [| exact Hin].
  apply list_elem_of_In, List.filter_In. split.
  - now apply list_elem_of_In.
  - apply same_page_own.
Qed.

(** The deferred highlight selects what [findIndex] reports for the first
    mapped token. *)
Lemma highlightWords_selects_first
    (st : State) (fieldPath : string) (i : nat) (rest : list mval) (w : OcrWord) :
  getNestedValue (mapping st) fieldPath = Some (MArr (MNum (Z.of_nat i) :: rest)) ->
  ocrWords st !! i = Some w ->
  exists k,
    findIndex (same_token w) (currentPageWords st (page_or_1 w)) = Some k
    /\ highlightWordsOnCurrentPage fieldPath (page_or_1 w) st
       = Returned (setSelectedIndex (Some k) st).
Proof.
  intros Hmap Hw.
  destruct (findIndex_found (same_token w) _ w (word_listed st i w Hw)
              (same_token_refl w)) as [k Hk].
  exists k. split; [exact Hk |].
  assert (word_at (ocrWords st) (Some (MNum (Z.of_nat i))) = Some w) as Hat.
  { now rewrite word_at_of_nat. }
  unfold highlightWordsOnCurrentPage. rewrite Hmap. cbn [or_empty truthy List.filter].
  rewrite Hat, same_page_own. cbn [omap list_omap]. rewrite Hat.
  cbn [mbind option_bind]. now rewrite Hk.
Qed.

(** C1, as the page computes it.  When the first mapped index names a
    token [w] whose page [p] is not the page shown, [highlightField] makes
    [p] the active page and, once the scheduled callback has run, selects
    the position, among the tokens listed for page [p], of the first token
    that has the text and the geometry of [w].  In a multi-page document
    where no earlier token of page [p] has the same text and geometry,
    that position is the page-relative index of [w] itself. *)
Theorem highlightField_switches_page_then_selects
    (st : State) (fieldPath : string) (stayOnExtractionView : bool)
    (i : nat) (rest : list mval) (w : OcrWord) :
  getNestedValue (mapping st) fieldPath = Some (MArr (MNum (Z.of_nat i) :: rest)) ->
  ocrWords st !! i = Some w ->
  page_or_1 w - 1 <> currentPageIndex st ->
  exists (st' : State) (k : nat),
    highlightField_settled fieldPath stayOnExtractionView st = Returned st'
    /\ currentPageIndex st' = page_or_1 w - 1
    /\ findIndex (same_token w) (currentPageWords st (page_or_1 w)) = Some k
    /\ selectedIndex st' = Some k
    /\ (isMultipage st = true ->
        (forall j w', (j < i)%nat -> ocrWords st !! j = Some w' ->
                      same_page (page_or_1 w) w' = true -> same_token w w' = false) ->
        k = page_relative_index (ocrWords st) (page_or_1 w) i).
Proof.
  intros Hmap Hw Hpage.
  set (p := page_or_1 w) in *.
  set (st1 := setImageSrc (url_at (imageUrls st) (p - 1)) (setCurrentPageIndex (p - 1) st)).
  set (st2 := if stayOnExtractionView then st1 else setActiveView ViewOcr st1).
  assert (highlightField fieldPath stayOnExtractionView st
          = Returned (st2, [HighlightLater fieldPath p])) as Hclick.
  { unfold highlightField, handleExtractedFieldClick.
    rewrite Hmap. cbn [or_empty truthy]. rewrite length_is_zero_cons.
    change (get_prop (MArr (MNum (Z.of_nat i) :: rest)) "0")
      with (Some (MNum (Z.of_nat i))).
    rewrite word_at_of_nat, Hw.
    fold p. apply Z.eqb_neq in Hpage. rewrite Hpage. reflexivity. }
  assert (mapping st2 = mapping st /\ ocrWords st2 = ocrWords st
          /\ isMultipage st2 = isMultipage st /\ currentPageIndex st2 = p - 1)
    as (Hm & Hwords & Hmulti & Hcur)
      by (unfold st2, st1; now destruct stayOnExtractionView).
  destruct (highlightWords_selects_first st2 fieldPath i rest w) as (k & Hk & Hrun).
  { now rewrite Hm. }
  { now rewrite Hwords. }
  fold p in Hk, Hrun.
  assert (currentPageWords st2 p = currentPageWords st p) as Hsame
      by (unfold currentPageWords; now rewrite Hmulti, Hwords).
  rewrite Hsame in Hk.
  exists (setSelectedIndex (Some k) st2), k.
  split; [| split; [| split; [| split]]].
  - unfold highlightField_settled. rewrite Hclick. cbn [fire_all fire].
    now rewrite Hrun.
  - exact Hcur.
  - exact Hk.
  - reflexivity.
  - intros Hmp Hfirst. unfold currentPageWords in Hk. rewrite Hmp in Hk.
    rewrite (findIndex_on_page (ocrWords st) i w p Hw (same_page_own w) Hfirst) in Hk.
    now injection Hk.
Qed.

(** The scenario of the design document: tokens 0-4 on page 1, tokens 5-7
    on page 2, [invoice_number] mapped to [[6]], page 1 shown. *)
Lemma highlightField_switches_page_then_selects_witness :
  exists st',
    highlightField_settled "invoice_number" true Fixtures.viewingPage1 = Returned st'
    /\ currentPageIndex st' = 1
    /\ selectedIndex st' = Some 1%nat.
Proof.
  destruct (highlightField_switches_page_then_selects
              Fixtures.viewingPage1 "invoice_number" true 6 []
              (mkWord "INV-001" (Fixtures.quad 60 10) (Some 2)))
    as (st' & k & Hrun & Hpage & _ & Hsel & Hown).
  - reflexivity.
  - reflexivity.
  - vm_compute. discriminate.
  - exists st'. split; [exact Hrun | split; [exact Hpage |]].
    rewrite Hsel, Hown; [reflexivity | reflexivity |].
    intros j w' Hj Hw' _.
    do 6 (destruct j as [|j]; [injection Hw' as <-; reflexivity |]). lia.
Defined.

(** When the same text was recognised twice in the same place, the
    selection lands on the earlier token, not on the mapped one. *)
Lemma duplicate_token_steals_selection : ~ highlight_selects_the_token_itself.
Proof.
  intros Hclaim.
  destruct (Hclaim Fixtures.stampedTwice "invoice_number" 6%nat []
              (mkWord "INV-001" (Fixtures.quad 60 10) (Some 2)))
    as (st' & Hrun & _ & Hsel).
  - reflexivity.
  - reflexivity.
  - vm_compute. discriminate.
  - vm_compute in Hrun. injection Hrun as <-. vm_compute in Hsel. discriminate.
Qed.

End HighlightFacts.

(** ** Heuristic mapping *)

Module FallbackFacts.

Import Review Design JsFacts.


(** With distinct field names, each field finds under its name what the
    loop body stored for it. *)
Lemma generateSimpleMapping_lookup
    (appFields : list Field) (extractedInfo : info) (ocrWords : list OcrWord)
    (field : Field) :
  NoDup (map name appFields) ->
  field ∈ appFields ->
  get_prop (generateSimpleMapping appFields extractedInfo ocrWords) (name field)
  = Some (mappingFor extractedInfo ocrWords field).
Proof.
  unfold generateSimpleMapping. cbn [get_prop].
  induction appFields as [|last front IH] using rev_ind; intros Hnd Hin.
  - now apply not_elem_of_nil in Hin.
  - rewrite fold_left_app. cbn [fold_left]. rewrite obj_get_set.
    rewrite map_app in Hnd. apply NoDup_app in Hnd as (Hfront & Hfresh & _).
    apply elem_of_app in Hin as [Hin | Hin].
    + destruct (String.eqb_spec (name last) (name field)) as [Heq | _].
      * exfalso. apply (Hfresh (name field)).
        -- apply list_elem_of_In, in_map, list_elem_of_In, Hin.
        -- rewrite <- Heq. apply list_elem_of_here.
      * now apply IH.
    + apply list_elem_of_singleton in Hin as ->. now rewrite String.eqb_refl.
Qed.





End FallbackFacts.

(** ** Polling *)

Module PollerFacts.

Import Poller Design.

(** What a tick with a non-terminal answer does while the render that
    started the poller saw fewer than [MAX_POLLING_ATTEMPTS] attempts:
    it counts, reports [Processing], and touches neither timers nor
    handles. *)
Lemma tick_other_below_budget (st : State) (t : nat) (tm : Timer) (sc : Scope) :
  find (fun tm => (timer_id tm =? t)%nat) (timers st) = Some tm ->
  timer_origin tm = FromStartPolling ->
  scopes st !! timer_scope tm = Some sc ->
  (seen_pollingAttemptCount sc < MAX_POLLING_ATTEMPTS)%nat ->
  tick t StatusOther st = setExtractionStatus Processing (setPollingAttemptCount S st).
Proof.
  intros Hfind Horigin Hscope Hseen. unfold tick. rewrite Hfind, Horigin, Hscope.
  unfold pollTick. cbn [checkExtractionStatus].
  destruct (Nat.leb_spec MAX_POLLING_ATTEMPTS (seen_pollingAttemptCount sc)); [lia |].
  reflexivity.
Qed.

Lemma ticks_other_below_budget (n : nat) (st : State) (t : nat) (tm : Timer) (sc : Scope) :
  find (fun tm => (timer_id tm =? t)%nat) (timers st) = Some tm ->
  timer_origin tm = FromStartPolling ->
  scopes st !! timer_scope tm = Some sc ->
  (seen_pollingAttemptCount sc < MAX_POLLING_ATTEMPTS)%nat ->
  timers (ticks n t StatusOther st) = timers st
  /\ scopes (ticks n t StatusOther st) = scopes st
  /\ pollingAttemptCount (ticks n t StatusOther st) = (pollingAttemptCount st + n)%nat
  /\ extractionStatus (ticks n t StatusOther st)
     = match n with O => extractionStatus st | S _ => Processing end.
Proof.
  revert st. induction n as [|n IH]; intros st Hfind Horigin Hscope Hseen.
  - simpl. repeat split. lia.
  - cbn [ticks]. rewrite (tick_other_below_budget st t tm sc) by assumption.
    destruct (IH (setExtractionStatus Processing (setPollingAttemptCount S st)))
      as (Ht & Hs & Hc & He); try assumption.
    rewrite Ht, Hs, Hc, He. cbn. repeat split; [lia | now destruct n].
Qed.

(** C3, on the page as written.  On a freshly mounted page the extraction
    is started and every tick answers with a non-terminal status.  After
    any number [n] of ticks, 20 included, the interval made by
    [startPolling] is still live; the status is [Processing] and the
    counter stands at [n].  The callback compares the budget with the
    [pollingAttemptCount] of the render that created it, which is 0. *)
Theorem fresh_poller_outlives_its_budget (n : nat) :
  timers (ticks n 0 StatusOther (startExtraction 0 PostSuccess mounted))
  = [mkTimer 0 FromStartPolling 0]
  /\ live 0 (ticks n 0 StatusOther (startExtraction 0 PostSuccess mounted))
  /\ pollingAttemptCount (ticks n 0 StatusOther (startExtraction 0 PostSuccess mounted)) = n
  /\ extractionStatus (ticks n 0 StatusOther (startExtraction 0 PostSuccess mounted))
     = Processing.
Proof.
  destruct (ticks_other_below_budget n (startExtraction 0 PostSuccess mounted) 0
              (mkTimer 0 FromStartPolling 0) (mkScope 0 Pending (Some 0%nat)))
    as (Ht & _ & Hc & He); try reflexivity.
  - unfold MAX_POLLING_ATTEMPTS. simpl. lia.
  - unfold live. rewrite Ht, Hc, He. repeat split.
    + exists (mkTimer 0 FromStartPolling 0). split; [apply list_elem_of_here | reflexivity].
    + now destruct n.
Qed.

Lemma handle_assign_handle (st : State) (r : nat) (v : option nat) :
  is_Some (scopes st !! r) -> handle r (assign_handle r v st) = v.
Proof.
  intros [sc Hsc]. unfold handle, assign_handle. cbn [scopes].
  now rewrite list_lookup_alter_eq, Hsc.
Qed.

Lemma startPolling_handle (st : State) (r : nat) :
  is_Some (scopes st !! r) -> handle r (startPolling r st) = Some (next_timer_id st).
Proof.
  intros Hsc. unfold startPolling.
  destruct (handle r st); cbn [setInterval clearInterval next_timer_id];
    now rewrite handle_assign_handle.
Qed.

Lemma startPolling_timers (st : State) (r : nat) :
  timers (startPolling r st)
  = (match handle r st with
     | Some t => List.filter (fun tm => negb (timer_id tm =? t)%nat) (timers st)
     | None => timers st
     end ++ [mkTimer (next_timer_id st) FromStartPolling r])%list.
Proof. unfold startPolling. now destruct (handle r st). Qed.

Lemma startPolling_next_timer_id (st : State) (r : nat) :
  next_timer_id (startPolling r st) = S (next_timer_id st).
Proof. unfold startPolling. now destruct (handle r st). Qed.

(** With no timer around, starting the poller twice from the same render
    leaves one live timer: the second call clears the first interval. *)
Lemma startPolling_twice_same_render (st : State) (r : nat) :
  is_Some (scopes st !! r) ->
  timers st = [] ->
  timers (startPolling r (startPolling r st))
  = [mkTimer (S (next_timer_id st)) FromStartPolling r].
Proof.
  intros Hsc Hnone.
  assert (timers (startPolling r st) = [mkTimer (next_timer_id st) FromStartPolling r])
    as Hfirst by (rewrite startPolling_timers, Hnone; now destruct (handle r st)).
  rewrite startPolling_timers, startPolling_handle, Hfirst, startPolling_next_timer_id
    by exact Hsc.
  cbn. now rewrite Nat.eqb_refl.
Qed.

(** C4, on the page as written.  [startPolling] followed by a successful
    [rerunOcr] leaves two live intervals, whether both run in the same
    render or the page re-rendered in between: [rerunOcr] calls
    [setInterval] without clearing anything.  In the same render the handle
    then names only the second interval, and the unmount cleanup leaves the
    first one running. *)
Theorem rerunOcr_adds_a_second_timer :
  timers (rerunOcr 0 true (startPolling 0 mounted))
  = [mkTimer 0 FromStartPolling 0; mkTimer 1 FromRerunOcr 0]
  /\ live 0 (rerunOcr 0 true (startPolling 0 mounted))
  /\ live 1 (rerunOcr 0 true (startPolling 0 mounted))
  /\ handle 0 (rerunOcr 0 true (startPolling 0 mounted)) = Some 1%nat
  /\ timers (unmount 0 (rerunOcr 0 true (startPolling 0 mounted)))
     = [mkTimer 0 FromStartPolling 0]
  /\ timers (rerunOcr 1 true (render (startExtraction 0 PostSuccess mounted)))
     = [mkTimer 0 FromStartPolling 0; mkTimer 1 FromRerunOcr 1].
Proof.
  repeat split.
  - exists (mkTimer 0 FromStartPolling 0). split; [apply list_elem_of_here | reflexivity].
  - exists (mkTimer 1 FromRerunOcr 0).
    split; [apply list_elem_of_further, list_elem_of_here | reflexivity].
Qed.

(** Starting the extraction again after a re-render does not find the
    earlier handle either. *)
Lemma restart_after_render_adds_a_second_timer :
  timers (startExtraction 1 PostSuccess (render (startExtraction 0 PostSuccess mounted)))
  = [mkTimer 0 FromStartPolling 0; mkTimer 1 FromStartPolling 1].
Proof. reflexivity. Qed.

Lemma clearInterval_not_live (t : nat) (st : State) : ~ live t (clearInterval t st).
Proof.
  intros (tm & Hin & Hid). unfold clearInterval in Hin. cbn in Hin.
  apply list_elem_of_In, List.filter_In in Hin as [_ Hne].
  rewrite Hid, Nat.eqb_refl in Hne. discriminate.
Qed.

(** The timeout branch itself: a poller created by a render that already
    saw the budget used up, with status [Processing], stops at its first
    non-terminal tick and leaves the status at [Processing]. *)
Lemma tick_other_at_budget (st : State) (t : nat) (tm : Timer) (sc : Scope) :
  find (fun tm => (timer_id tm =? t)%nat) (timers st) = Some tm ->
  timer_origin tm = FromStartPolling ->
  scopes st !! timer_scope tm = Some sc ->
  (MAX_POLLING_ATTEMPTS <= seen_pollingAttemptCount sc)%nat ->
  seen_extractionStatus sc = Processing ->
  statusCheckTimer sc = Some t ->
  ~ live t (tick t StatusOther st)
  /\ extractionStatus (tick t StatusOther st) = Processing.
Proof.
  intros Hfind Horigin Hscope Hseen Hstatus Hhandle.
  unfold tick. rewrite Hfind, Horigin, Hscope.
  unfold pollTick. cbn [checkExtractionStatus]. rewrite Hstatus.
  destruct (Nat.leb_spec MAX_POLLING_ATTEMPTS (seen_pollingAttemptCount sc)); [| lia].
  cbn [andb]. unfold stopPolling.
  assert (handle (timer_scope tm)
            (setExtractionStatus Processing (setPollingAttemptCount S st)) = Some t)
    as -> by (unfold handle; cbn; now rewrite Hscope).
  split; [| reflexivity].
  intros (tm' & Hin & Hid).
  apply (clearInterval_not_live t
           (setExtractionStatus Processing (setPollingAttemptCount S st))).
  exists tm'. split; [exact Hin | exact Hid].
Qed.

(** C5, as the page computes it.  A tick of the [startPolling] interval
    whose status query raises always counts.  While the attempt count seen
    by the callback is below the budget, the status and the timers stay as
    they were; once it has reached the budget, the tick sets the status to
    [Failed] and clears the interval that the render's handle names. *)
Theorem failing_tick_counts_and_fails_at_budget
    (st : State) (t : nat) (tm : Timer) (sc : Scope) :
  find (fun tm => (timer_id tm =? t)%nat) (timers st) = Some tm ->
  timer_origin tm = FromStartPolling ->
  scopes st !! timer_scope tm = Some sc ->
  pollingAttemptCount (tick t StatusThrows st) = S (pollingAttemptCount st)
  /\ ((seen_pollingAttemptCount sc < MAX_POLLING_ATTEMPTS)%nat ->
      extractionStatus (tick t StatusThrows st) = extractionStatus st
      /\ timers (tick t StatusThrows st) = timers st)
  /\ ((MAX_POLLING_ATTEMPTS <= seen_pollingAttemptCount sc)%nat ->
      extractionStatus (tick t StatusThrows st) = Failed
      /\ (statusCheckTimer sc = Some t -> ~ live t (tick t StatusThrows st))).
Proof.
  intros Hfind Horigin Hscope. unfold tick. rewrite Hfind, Horigin, Hscope.
  unfold pollTick. cbn [checkExtractionStatus].
  destruct (Nat.leb_spec MAX_POLLING_ATTEMPTS (seen_pollingAttemptCount sc)) as [Hge | Hlt].
  - assert (handle (timer_scope tm) (setExtractionStatus Failed (setPollingAttemptCount S st))
            = statusCheckTimer sc) as Hhandle
        by (unfold handle; cbn; now rewrite Hscope).
    unfold stopPolling. rewrite Hhandle. split; [| split].
    + now destruct (statusCheckTimer sc).
    + lia.
    + intros _. split; [now destruct (statusCheckTimer sc) |].
      intros ->. intros (tm' & Hin & Hid).
      apply (clearInterval_not_live t (setExtractionStatus Failed (setPollingAttemptCount S st))).
      exists tm'. split; [exact Hin | exact Hid].
  - split; [reflexivity | split; [now intros _ | lia]].
Qed.

Lemma failing_tick_counts_and_fails_at_budget_witness :
  Poller.extractionStatus Fixtures.restartedAtBudget = Processing
  /\ extractionStatus (tick 1 StatusThrows Fixtures.restartedAtBudget) = Failed
  /\ pollingAttemptCount (tick 1 StatusThrows Fixtures.restartedAtBudget) = 1%nat
  /\ ~ live 1 (tick 1 StatusThrows Fixtures.restartedAtBudget).
Proof.
  destruct (failing_tick_counts_and_fails_at_budget Fixtures.restartedAtBudget 1
              (mkTimer 1 FromStartPolling 1) (mkScope 20 Processing (Some 1%nat)))
    as (Hcount & _ & Hfail); try (vm_compute; reflexivity).
  destruct Hfail as [Hstatus Hstopped]; [vm_compute; lia |].
  split; [vm_compute; reflexivity | split; [exact Hstatus | split; [exact Hcount |]]].
  apply Hstopped. reflexivity.
Defined.

(** One failing tick is enough to fail the job once the render that
    started the poller had twenty attempts on its counter. *)
Lemma failing_tick_can_fail_the_job : ~ failing_tick_never_fails_the_job.
Proof.
  intros Hclaim. apply (Hclaim Fixtures.restartedAtBudget 1%nat).
  - vm_compute. discriminate.
  - vm_compute. reflexivity.
Qed.

End PollerFacts.

(** ** Edit session *)

Module EditFacts.

Import EditSession.

(** Leaving edit mode through the save button: the buffer becomes the live
    value and the rollback target, and one [onSave] call is scheduled. *)
Lemma save_commits_the_buffer (s : Session) :
  editMode s = true ->
  editMode (dispatch ToggleEditMode s) = false
  /\ extractedInfo (dispatch ToggleEditMode s) = editedInfo s
  /\ editedInfo (dispatch ToggleEditMode s) = editedInfo s
  /\ originalInfo (dispatch ToggleEditMode s) = editedInfo s
  /\ length (saveRequests (dispatch ToggleEditMode s)) = S (length (saveRequests s)).
Proof.
  intros Hedit. unfold dispatch, handler, toggleEditMode, notifiesPage.
  rewrite Hedit. cbn. rewrite length_app. cbn. repeat split. lia.
Qed.

(** A top-level edit reaches the live value at once. *)
Lemma updateFieldValue_is_live (s : Session) (fieldName : string) (value : ival) :
  editMode s = true ->
  extractedInfo (dispatch (UpdateFieldValue fieldName value) s)
  = obj_set (editedInfo s) fieldName value
  /\ editedInfo (dispatch (UpdateFieldValue fieldName value) s)
     = obj_set (editedInfo s) fieldName value.
Proof.
  intros Hedit. unfold dispatch, handler, updateFieldValue, notifiesPage, syncEffect.
  cbn. now rewrite Hedit.
Qed.

(** C8, on the component as written.  In edit mode, a top-level edit
    followed by cancel leaves the edited value in the live value state:
    [cancelEdit] resets only the component's buffer, and the sync effect
    then reloads buffer and rollback target from the live value. *)
Theorem cancel_keeps_a_propagated_edit
    (s : Session) (fieldName : string) (value : ival) :
  editMode s = true ->
  editMode (run [UpdateFieldValue fieldName value; CancelEdit] s) = false
  /\ extractedInfo (run [UpdateFieldValue fieldName value; CancelEdit] s)
     = obj_set (editedInfo s) fieldName value
  /\ editedInfo (run [UpdateFieldValue fieldName value; CancelEdit] s)
     = obj_set (editedInfo s) fieldName value
  /\ originalInfo (run [UpdateFieldValue fieldName value; CancelEdit] s)
     = obj_set (editedInfo s) fieldName value
  /\ saveRequests (run [UpdateFieldValue fieldName value; CancelEdit] s) = saveRequests s.
Proof.
  intros Hedit. destruct s as [live mode buffer snapshot saves].
  cbn in Hedit. subst mode. repeat split.
Qed.

(** The snapshot holds "A1"; after typing "B2" and cancelling, the live
    value holds "B2". *)
Lemma cancel_keeps_a_propagated_edit_witness :
  read (originalInfo Fixtures.editingInvoice) "invoice_number" = VStr "A1"
  /\ read (extractedInfo
             (run [UpdateFieldValue "invoice_number" (VStr "B2"); CancelEdit]
                Fixtures.editingInvoice)) "invoice_number"
     = VStr "B2".
Proof.
  split; [reflexivity |].
  destruct (cancel_keeps_a_propagated_edit Fixtures.editingInvoice "invoice_number"
              (VStr "B2")) as (_ & Hlive & _); [reflexivity |].
  rewrite Hlive. reflexivity.
Defined.

(** Without a propagated edit, cancel does restore the snapshot. *)
Lemma cancel_after_nested_edit_restores
    (s : Session) (fieldName subFieldName : string) (value : ival) :
  editMode s = true ->
  extractedInfo s = originalInfo s ->
  extractedInfo (run [UpdateMapFieldValue fieldName subFieldName value; CancelEdit] s)
  = originalInfo s
  /\ editedInfo (run [UpdateMapFieldValue fieldName subFieldName value; CancelEdit] s)
     = originalInfo s.
Proof.
  intros Hedit Hsnap. destruct s as [live mode buffer snapshot saves].
  cbn in Hedit, Hsnap. subst mode live. repeat split.
Qed.

Lemma dispatch_keeps_live_value (ev : Event) (s : Session) :
  notifiesPage ev s = false ->
  editMode s = true ->
  extractedInfo (dispatch ev s) = extractedInfo s.
Proof.
  intros Hquiet Hedit. unfold dispatch. rewrite Hquiet.
  destruct ev; try discriminate; cbn in Hquiet |- *.
  - congruence.
  - rewrite Hedit. reflexivity.
  - rewrite Hedit. reflexivity.
  - unfold updateListItem. destruct (arr_spread _); cbn; [now rewrite Hedit | reflexivity].
  - unfold updateListItemProperty.
    destruct (arr_spread _); cbn; [now rewrite Hedit | reflexivity].
Qed.

(** C9, on the component as written.  In any state of the component, an
    edit of a leaf under a map field, of a property of a list row, or of a
    list item changes the component's buffer only: the live value state is
    what it was before the edit. *)
Theorem nested_edits_stay_in_the_buffer (s : Session) :
  (forall fieldName subFieldName value,
      extractedInfo (dispatch (UpdateMapFieldValue fieldName subFieldName value) s)
      = extractedInfo s)
  /\ (forall fieldName itemIndex propertyName value,
         extractedInfo
           (dispatch (UpdateListItemProperty fieldName itemIndex propertyName value) s)
         = extractedInfo s)
  /\ (forall fieldName itemIndex itemValue,
         extractedInfo (dispatch (UpdateListItem fieldName itemIndex itemValue) s)
         = extractedInfo s).
Proof.
  split; [| split]; intros; unfold dispatch, handler, notifiesPage.
  - cbn. now rewrite Bool.eqb_reflx.
  - unfold updateListItemProperty. destruct (arr_spread _); cbn;
      [now rewrite Bool.eqb_reflx | reflexivity].
  - unfold updateListItem. destruct (arr_spread _); cbn;
      [now rewrite Bool.eqb_reflx | reflexivity].
Qed.

(** The shipper name and a row item are retyped: the buffer has the new
    text, the live value still the old one. *)
Lemma nested_edits_are_not_live :
  let s := run [UpdateMapFieldValue "shipper" "name" (VStr "South");
                UpdateListItemProperty "lines" 0 "item" (VStr "nut")]
               Fixtures.editingInvoice in
  read (editedInfo s) "shipper" = VObj [("name", VStr "South")]
  /\ read (extractedInfo s) "shipper" = VObj [("name", VStr "North")]
  /\ read (editedInfo s) "lines" = VArr [VObj [("item", VStr "nut")]]
  /\ read (extractedInfo s) "lines" = VArr [VObj [("item", VStr "bolt")]].
Proof. repeat split. Qed.

End EditFacts.

(** * Further properties of the code *)

(** ** Paths and property keys *)

Module PathFacts.

Import Review Page.

Lemma split_dot_nonempty (s : string) : split_dot s <> [].
Proof.
  destruct s as [|c s]; simpl; [discriminate |].
  destruct (Ascii.eqb c "."); [discriminate |]. now destruct (split_dot s).
Qed.

Lemma join_dot_cons (part : string) (rest : list string) :
  rest <> [] -> join_dot (part :: rest) = part ++ "." ++ join_dot rest.
Proof. now destruct rest. Qed.

Lemma join_split_dot (s : string) : join_dot (split_dot s) = s.
Proof.
  induction s as [|c s IH]; [reflexivity |].
  cbn [split_dot]. destruct (Ascii.eqb_spec c ".") as [-> | Hc].
  - rewrite join_dot_cons by apply split_dot_nonempty. now rewrite IH.
  - pose proof (split_dot_nonempty s) as Hne.
    destruct (split_dot s) as [|hd tl]; [congruence |].
    destruct tl as [|t tl]; cbn [join_dot] in *; now rewrite <- IH.
Qed.

Lemma split_dot_free (s : string) : dot_free s = true -> split_dot s = [s].
Proof.
  induction s as [|c s IH]; [reflexivity |]. cbn [dot_free split_dot].
  destruct (Ascii.eqb c "."); [discriminate |]. intros Hs. now rewrite (IH Hs).
Qed.

Lemma split_dot_app (a b : string) :
  split_dot (a ++ "." ++ b) = (split_dot a ++ split_dot b)%list.
Proof.
  induction a as [|c a IH]; [reflexivity |].
  cbn [String.append split_dot]. cbn [String.append] in IH. rewrite IH.
  destruct (Ascii.eqb c "."); [reflexivity |].
  pose proof (split_dot_nonempty a) as Hne.
  now destruct (split_dot a).
Qed.

Lemma split_join_dot (parts : list string) :
  parts <> [] -> Forall (fun part => dot_free part = true) parts ->
  split_dot (join_dot parts) = parts.
Proof.
  intros Hne Hfree. induction Hfree as [|part rest Hpart Hrest IH]; [congruence |].
  destruct rest as [|next rest].
  - now apply split_dot_free.
  - rewrite join_dot_cons by discriminate.
    rewrite split_dot_app, (split_dot_free part Hpart), IH by discriminate.
    reflexivity.
Qed.

(** Splitting a path at its dots and joining the pieces with dots are
    inverse to each other: joining the split gives the path back, and
    splitting the join of a non-empty list of dot-free keys gives the keys
    back. *)
Theorem split_dot_join_dot_round_trip (s : string) (parts : list string) :
  parts <> [] ->
  Forall (fun part => dot_free part = true) parts ->
  join_dot (split_dot s) = s /\ split_dot (join_dot parts) = parts.
Proof.
  intros Hne Hfree. split; [apply join_split_dot | now apply split_join_dot].
Qed.

Lemma split_dot_join_dot_round_trip_witness :
  join_dot (split_dot "lines.0.item") = "lines.0.item"
  /\ split_dot (join_dot ["lines"; "0"; "item"]) = ["lines"; "0"; "item"].
Proof.
  apply (split_dot_join_dot_round_trip "lines.0.item" ["lines"; "0"; "item"]).
  - discriminate.
  - repeat constructor.
Defined.

Lemma lookup_undefined (keys : list string) :
  fold_left
    (fun current key =>
       match current with
       | Some c => if truthy c then get_prop c key else None
       | None => None
       end)
    keys None = None.
Proof. now induction keys. Qed.

(** Resolving [a.b] is resolving [a] and then resolving [b] inside what
    was found; a path whose first part finds nothing finds nothing. *)
Theorem getNestedValue_composes (obj : mval) (a b : string) :
  getNestedValue obj (a ++ "." ++ b)
  = match getNestedValue obj a with
    | Some v => getNestedValue v b
    | None => None
    end.
Proof.
  unfold getNestedValue. rewrite split_dot_app, fold_left_app.
  destruct (fold_left _ (split_dot a) (Some obj)); [reflexivity |].
  apply lookup_undefined.
Qed.

Lemma string_of_uint_dot_free (d : Decimal.uint) :
  dot_free (NilEmpty.string_of_uint d) = true.
Proof. induction d; simpl; auto. Qed.

Lemma string_of_index_dot_free (i : nat) : dot_free (string_of_index i) = true.
Proof. apply string_of_uint_dot_free. Qed.

(** An array position written as a property key reads back as itself. *)
Lemma parse_index_string_of_index (i : nat) : parse_index (string_of_index i) = Some i.
Proof.
  unfold parse_index, string_of_index. rewrite NilEmpty.usu, Unsigned.of_to.
  now rewrite String.eqb_refl.
Qed.

Lemma string_of_index_not_length (i : nat) : String.eqb (string_of_index i) "length" = false.
Proof.
  destruct (String.eqb_spec (string_of_index i) "length") as [Heq | _]; [| reflexivity].
  pose proof (NilEmpty.usu (Nat.to_uint i)) as Hback.
  unfold string_of_index in Heq. rewrite Heq in Hback. discriminate.
Qed.

(** [rows[i]] through the key [String(i)]. *)
Lemma get_prop_row (rows : list mval) (i : nat) :
  get_prop (MArr rows) (string_of_index i) = rows !! i.
Proof.
  cbn [get_prop]. rewrite string_of_index_not_length, parse_index_string_of_index.
  reflexivity.
Qed.

End PathFacts.

(** ** Geometry, images and navigation *)

Module PageFacts.

Import Review Page Design.

Lemma fold_num_min_spec (xs : list (option Z)) (a : Z) :
  (forall o, o ∈ xs -> is_Some o) ->
  exists m, fold_num Z.min (Num a) xs = Num m
            /\ m <= a /\ forall x, Some x ∈ xs -> m <= x.
Proof.
  revert a. induction xs as [|o xs IH]; intros a Hall.
  - exists a. split; [reflexivity | split; [lia |]].
    intros x Hx. now apply not_elem_of_nil in Hx.
  - destruct (Hall o (list_elem_of_here _ _)) as [x0 ->]. cbn [fold_num].
    destruct (IH (Z.min a x0)) as (m & Hm & Hle & Hall').
    { intros o Ho. apply Hall. now apply list_elem_of_further. }
    exists m. split; [exact Hm | split; [lia |]].
    intros x Hx. apply elem_of_cons in Hx as [[= ->] | Hx]; [lia | now apply Hall'].
Qed.

Lemma fold_num_max_spec (xs : list (option Z)) (a : Z) :
  (forall o, o ∈ xs -> is_Some o) ->
  exists m, fold_num Z.max (Num a) xs = Num m
            /\ a <= m /\ forall x, Some x ∈ xs -> x <= m.
Proof.
  revert a. induction xs as [|o xs IH]; intros a Hall.
  - exists a. split; [reflexivity | split; [lia |]].
    intros x Hx. now apply not_elem_of_nil in Hx.
  - destruct (Hall o (list_elem_of_here _ _)) as [x0 ->]. cbn [fold_num].
    destruct (IH (Z.max a x0)) as (m & Hm & Hle & Hall').
    { intros o Ho. apply Hall. now apply list_elem_of_further. }
    exists m. split; [exact Hm | split; [lia |]].
    intros x Hx. apply elem_of_cons in Hx as [[= ->] | Hx]; [lia | now apply Hall'].
Qed.

Lemma math_min_max_spec (xs : list (option Z)) :
  xs <> [] ->
  (forall o, o ∈ xs -> is_Some o) ->
  exists lo hi,
    math_min xs = Num lo /\ math_max xs = Num hi
    /\ lo <= hi /\ forall x, Some x ∈ xs -> lo <= x <= hi.
Proof.
  intros Hne Hall. destruct xs as [|o xs]; [congruence |].
  destruct (Hall o (list_elem_of_here _ _)) as [x0 ->].
  assert (forall o, o ∈ xs -> is_Some o) as Hrest
      by (intros o Ho; apply Hall; now apply list_elem_of_further).
  destruct (fold_num_min_spec xs x0 Hrest) as (lo & Hlo & Hlo0 & Hlos).
  destruct (fold_num_max_spec xs x0 Hrest) as (hi & Hhi & Hhi0 & His).
  exists lo, hi. cbn [math_min math_max].
  split; [exact Hlo | split; [exact Hhi | split; [lia |]]].
  intros x Hx. apply elem_of_cons in Hx as [[= ->] | Hx]; [lia |].
  split; [now apply Hlos | now apply His].
Qed.

Lemma coordinates_defined (pts : list (list Z)) (k : nat) :
  (forall p, p ∈ pts -> is_Some (p !! k)) ->
  forall o, o ∈ map (fun p : list Z => p !! k) pts -> is_Some o.
Proof.
  intros Hall o Ho.
  apply list_elem_of_In, in_map_iff in Ho as (p & <- & Hp).
  apply Hall. now apply list_elem_of_In.
Qed.

Lemma coordinate_listed (pts : list (list Z)) (k : nat) (p : list Z) (x : Z) :
  p ∈ pts -> p !! k = Some x -> Some x ∈ map (fun p : list Z => p !! k) pts.
Proof.
  intros Hp Hx. apply list_elem_of_In, in_map_iff. exists p.
  split; [exact Hx | now apply list_elem_of_In].
Qed.

(** [Math.min] and [Math.max] return one of their arguments. *)
Lemma fold_num_picks (op : Z -> Z -> Z) (P : Z -> Prop) (xs : list (option Z)) (a m : Z) :
  (forall x y, op x y = x \/ op x y = y) ->
  P a ->
  (forall x, Some x ∈ xs -> P x) ->
  fold_num op (Num a) xs = Num m ->
  P m.
Proof.
  intros Hop. revert a. induction xs as [|o xs IH]; intros a Ha Hxs Hm.
  - now injection Hm as <-.
  - destruct o as [x0|]; cbn [fold_num] in Hm.
    + apply (IH (op a x0)); [| | exact Hm].
      * destruct (Hop a x0) as [-> | ->]; [exact Ha |].
        apply Hxs, list_elem_of_here.
      * intros x Hx. now apply Hxs, list_elem_of_further.
    + exfalso. clear -Hm. induction xs as [|[x|] xs IH]; cbn in Hm; [discriminate | auto ..].
Qed.

Lemma math_min_max_picks (P : Z -> Prop) (xs : list (option Z)) (lo hi : Z) :
  (forall x, Some x ∈ xs -> P x) ->
  math_min xs = Num lo -> math_max xs = Num hi ->
  P lo /\ P hi.
Proof.
  intros Hxs Hlo Hhi. destruct xs as [|[x0|] xs]; try discriminate.
  cbn [math_min math_max] in Hlo, Hhi. split.
  - apply (fold_num_picks Z.min P xs x0 lo); [lia | | | exact Hlo].
    + apply Hxs, list_elem_of_here.
    + intros x Hx. now apply Hxs, list_elem_of_further.
  - apply (fold_num_picks Z.max P xs x0 hi); [lia | | | exact Hhi].
    + apply Hxs, list_elem_of_here.
    + intros x Hx. now apply Hxs, list_elem_of_further.
Qed.

Lemma safe_coordinate (pts : list (list Z)) (k : nat) (x : Z) :
  safe_coordinates pts ->
  Some x ∈ map (fun p : list Z => p !! k) pts ->
  - 2 ^ 52 <= x <= 2 ^ 52.
Proof.
  intros Hsafe Hx. apply list_elem_of_In, in_map_iff in Hx as (p & Hpk & Hp).
  apply list_elem_of_In in Hp.
  pose proof (proj1 (Forall_forall _ _) Hsafe p Hp) as Hcs.
  apply (proj1 (Forall_forall _ _) Hcs x).
  now apply list_elem_of_lookup_2 with k.
Qed.

(** For a token with at least four vertices, each with an x and a y, all
    coordinates integers of magnitude at most 2^52 (where the differences
    the page takes are exact), the box has non-negative width and height,
    both at most 2^53, and encloses every vertex. *)
Theorem box_encloses_vertices (index : nat) (word : OcrWord) (pts : list (list Z)) :
  points word = Some pts ->
  (4 <= length pts)%nat ->
  full_vertices pts ->
  safe_coordinates pts ->
  exists t l w h,
    box_of index word = mkBox index (Num t) (Num l) (Num w) (Num h) (content word)
    /\ 0 <= w <= 2 ^ 53 /\ 0 <= h <= 2 ^ 53
    /\ forall p x y, p ∈ pts -> p !! 0%nat = Some x -> p !! 1%nat = Some y ->
                     l <= x <= l + w /\ t <= y <= t + h.
Proof.
  intros Hpts Hlen Hfull Hsafe.
  assert (pts <> []) as Hne by (destruct pts; [simpl in Hlen; lia | discriminate]).
  destruct (math_min_max_spec (map (fun p : list Z => p !! 0%nat) pts))
    as (l & r & Hl & Hr & Hlr & Hxs).
  { now destruct pts. }
  { apply coordinates_defined. intros p Hp. destruct (Hfull p Hp) as (x & _ & -> & _).
    now eexists. }
  destruct (math_min_max_spec (map (fun p : list Z => p !! 1%nat) pts))
    as (t & b & Ht & Hb & Htb & Hys).
  { now destruct pts. }
  { apply coordinates_defined. intros p Hp. destruct (Hfull p Hp) as (_ & y & _ & ->).
    now eexists. }
  destruct (math_min_max_picks (fun x => - 2 ^ 52 <= x <= 2 ^ 52) _ l r
              (fun x => safe_coordinate pts 0 x Hsafe) Hl Hr) as [Hlsafe Hrsafe].
  destruct (math_min_max_picks (fun y => - 2 ^ 52 <= y <= 2 ^ 52) _ t b
              (fun y => safe_coordinate pts 1 y Hsafe) Ht Hb) as [Htsafe Hbsafe].
  exists t, l, (r - l), (b - t). split; [| split; [lia | split; [lia |]]].
  - unfold box_of. rewrite Hpts.
    destruct (Nat.ltb_spec (length pts) 4); [lia |].
    now rewrite Hl, Hr, Ht, Hb.
  - intros p x y Hp Hx Hy.
    pose proof (Hxs x (coordinate_listed pts 0 p x Hp Hx)).
    pose proof (Hys y (coordinate_listed pts 1 p y Hp Hy)). lia.
Qed.

Lemma box_encloses_vertices_witness :
  exists t l w h,
    box_of 7 (mkWord "Total" (Fixtures.quad 10 30) (Some 2))
    = mkBox 7 (Num t) (Num l) (Num w) (Num h) "Total"
    /\ 0 <= w <= 2 ^ 53 /\ 0 <= h <= 2 ^ 53
    /\ forall p x y, p ∈ [[10; 30]; [50; 30]; [50; 42]; [10; 42]] ->
                     p !! 0%nat = Some x -> p !! 1%nat = Some y ->
                     l <= x <= l + w /\ t <= y <= t + h.
Proof.
  apply (box_encloses_vertices 7 (mkWord "Total" (Fixtures.quad 10 30) (Some 2))
           [[10; 30]; [50; 30]; [50; 42]; [10; 42]]).
  - reflexivity.
  - simpl. lia.
  - intros p Hp. repeat (apply elem_of_cons in Hp as [-> | Hp]; [now eexists _, _ |]).
    now apply not_elem_of_nil in Hp.
  - repeat constructor; lia.
Defined.

End PageFacts.

(** ** More on highlighting *)

Module HighlightMoreFacts.

Import Review Page Design JsFacts HighlightFacts PathFacts.

Lemma word_at_Some (words : list OcrWord) (index : option mval) (w : OcrWord) :
  word_at words index = Some w -> exists i, words !! i = Some w.
Proof.
  unfold word_at. destruct index as [x|]; cbn; [| discriminate].
  destruct (to_index x) as [i|]; cbn; [| discriminate]. now exists i.
Qed.

Lemma word_at_listed (st : State) (index : option mval) (w : OcrWord) :
  word_at (ocrWords st) index = Some w -> w ∈ currentPageWords st (page_or_1 w).
Proof.
  intros Hat. destruct (word_at_Some _ _ _ Hat) as [i Hi]. now apply (word_listed st i).
Qed.

(** [highlightWordsOnCurrentPage] changes nothing but the selection, and a
    new selection is a position of the list it searched. *)
Lemma highlightWords_frame (fieldPath : string) (p : Z) (st st' : State) :
  highlightWordsOnCurrentPage fieldPath p st = Returned st' ->
  st' = st
  \/ exists k w, st' = setSelectedIndex (Some k) st /\ currentPageWords st p !! k = Some w.
Proof.
  unfold highlightWordsOnCurrentPage.
  destruct (or_empty (getNestedValue (mapping st) fieldPath)) as [| |wordIndices|];
    try discriminate.
  destruct (List.filter _ wordIndices) as [|x xs]; [intros [= <-]; now left |].
  destruct (omap _ (x :: xs)) as [|k ks] eqn:Hrel; [intros [= <-]; now left |].
  intros [= <-]. right.
  assert (k ∈ omap
            (fun globalIndex =>
               word ← word_at (ocrWords st) (Some globalIndex);
               findIndex (same_token word) (currentPageWords st p))
            (x :: xs)) as Hk by (rewrite Hrel; apply list_elem_of_here).
  apply list_elem_of_omap in Hk as (y & _ & Hy).
  destruct (word_at (ocrWords st) (Some y)) as [word|]; cbn in Hy; [| discriminate].
  destruct (findIndex_hits _ _ _ Hy) as (w & Hw & _). now exists k, w.
Qed.

(** The first listed index decides what [highlightWordsOnCurrentPage]
    selects on the page of its token. *)
Lemma highlightWords_selects_first_listed
    (st : State) (fieldPath : string) (x : mval) (rest : list mval) (w : OcrWord) :
  getNestedValue (mapping st) fieldPath = Some (MArr (x :: rest)) ->
  word_at (ocrWords st) (Some x) = Some w ->
  exists k,
    findIndex (same_token w) (currentPageWords st (page_or_1 w)) = Some k
    /\ highlightWordsOnCurrentPage fieldPath (page_or_1 w) st
       = Returned (setSelectedIndex (Some k) st).
Proof.
  intros Hmap Hat.
  destruct (findIndex_found (same_token w) _ w (word_at_listed st _ w Hat)
              (same_token_refl w)) as [k Hk].
  exists k. split; [exact Hk |].
  unfold highlightWordsOnCurrentPage. rewrite Hmap. cbn [or_empty truthy List.filter].
  rewrite Hat, same_page_own. cbn [omap list_omap]. rewrite Hat.
  cbn [mbind option_bind]. now rewrite Hk.
Qed.

(** The three ways [handleExtractedFieldClick] can go. *)
Lemma click_cases (fieldPath : string) (st : State) :
  handleExtractedFieldClick fieldPath st = Returned (st, [])
  \/ (exists w,
        page_or_1 w - 1 <> currentPageIndex st
        /\ handleExtractedFieldClick fieldPath st
           = Returned (switched st (page_or_1 w), [HighlightLater fieldPath (page_or_1 w)]))
  \/ (exists w,
        page_or_1 w - 1 = currentPageIndex st
        /\ handleExtractedFieldClick fieldPath st
           = match highlightWordsOnCurrentPage fieldPath (page_or_1 w) st with
             | Returned st' => Returned (st', [])
             | Thrown => Thrown
             end).
Proof.
  unfold handleExtractedFieldClick.
  destruct (length_is_zero _); [now left |].
  destruct (word_at _ _) as [w|]; [| now left].
  destruct (Z.eqb_spec (page_or_1 w - 1) (currentPageIndex st)) as [Heq | Hne]; cbn [negb].
  - right. right. now exists w.
  - right. left. now exists w.
Qed.

Lemma switched_reads (st : State) (p : Z) :
  mapping (switched st p) = mapping st
  /\ ocrWords (switched st p) = ocrWords st
  /\ isMultipage (switched st p) = isMultipage st
  /\ selectedIndex (switched st p) = selectedIndex st
  /\ currentPageIndex (switched st p) = p - 1
  /\ imageSrc (switched st p) = url_at (imageUrls st) (p - 1)
  /\ imageUrls (switched st p) = imageUrls st.
Proof. repeat split. Qed.

(** What [highlightField] and its callback leave behind: the state as it
    was, or the page of the first mapped token, each with at most a new
    selection taken from the tokens listed for the page then shown; the
    view may have changed to the OCR view. *)
Lemma highlightField_settled_cases
    (fieldPath : string) (stay : bool) (st st' : State) :
  highlightField_settled fieldPath stay st = Returned st' ->
  exists base,
    (base = st \/ exists p, base = switched st p)
    /\ (exists v,
          st' = setActiveView v base
          \/ exists k w,
               st' = setSelectedIndex (Some k) (setActiveView v base)
               /\ currentPageWords base (currentPageIndex base + 1) !! k = Some w).
Proof.
  unfold highlightField_settled, highlightField.
  destruct (click_cases fieldPath st) as [-> | [(w & Hne & ->) | (w & Heq & ->)]].
  - cbn. intros [= <-]. exists st. split; [now left |].
    exists (if stay then activeView st else ViewOcr). left. now destruct stay, st.
  - cbn [fire_all fire].
    destruct (highlightWordsOnCurrentPage _ _ _) as [st2|] eqn:Hrun; [| discriminate].
    intros [= <-]. exists (switched st (page_or_1 w)). split; [right; now eexists |].
    exists (if stay then activeView st else ViewOcr).
    apply highlightWords_frame in Hrun as [-> | (k & w' & -> & Hk)].
    + left. now destruct stay, st.
    + right. exists k, w'. split; [now destruct stay, st |].
      replace (currentPageIndex (switched st (page_or_1 w)) + 1) with (page_or_1 w)
        by (cbn; lia).
      now destruct stay.
  - destruct (highlightWordsOnCurrentPage _ _ _) as [st2|] eqn:Hrun; [| discriminate].
    cbn. intros [= <-]. exists st. split; [now left |].
    exists (if stay then activeView st else ViewOcr).
    apply highlightWords_frame in Hrun as [-> | (k & w' & -> & Hk)].
    + left. now destruct stay, st.
    + right. exists k, w'. split; [now destruct stay, st |].
      now replace (currentPageIndex st + 1) with (page_or_1 w) by lia.
Qed.

Lemma tagged_filters_agree (words : list OcrWord) (p : Z) :
  all_tagged words ->
  List.filter (same_page p) words = List.filter (on_page p) words.
Proof.
  intros Htag. apply List.filter_ext_in. intros w Hw.
  destruct (Htag w) as (q & Hq & Hq0); [now apply list_elem_of_In |].
  unfold same_page, on_page. rewrite Hq. destruct q; [congruence | |]; apply orb_false_r.
Qed.

Lemma box_of_id (index : nat) (word : OcrWord) : bx_id (box_of index word) = index.
Proof.
  unfold box_of. destruct (points word) as [pts|]; [| reflexivity].
  now destruct (length pts <? 4)%nat.
Qed.

(** When every token carries a page number, whatever [highlightField] and
    its callback select is the position of a box drawn for the page then
    shown: the selection is kept, or it names an existing box with that
    very id. *)
Theorem selection_names_a_drawn_box
    (fieldPath : string) (stayOnExtractionView : bool) (st st' : State) :
  all_tagged (ocrWords st) ->
  highlightField_settled fieldPath stayOnExtractionView st = Returned st' ->
  selectedIndex st' = selectedIndex st
  \/ exists k box,
       selectedIndex st' = Some k
       /\ boundingBoxes (updateBoundingBoxesForCurrentPage None st') !! k = Some box
       /\ bx_id box = k.
Proof.
  intros Htag Hrun.
  destruct (highlightField_settled_cases _ _ _ _ Hrun)
    as (base & Hbase & v & [-> | (k & w & -> & Hk)]).
  - left. destruct Hbase as [-> | [p ->]]; reflexivity.
  - right. exists k, (box_of k w). split; [reflexivity | split; [| apply box_of_id]].
    unfold updateBoundingBoxesForCurrentPage. cbn [boundingBoxes setBoundingBoxes].
    rewrite list_lookup_imap.
    assert (ocrWords base = ocrWords st) as Hwords
        by (destruct Hbase as [-> | [p ->]]; reflexivity).
    assert (wordsForBoxes
              (setSelectedIndex (Some k) (setActiveView v base))
              (default
                 (currentPageIndex (setSelectedIndex (Some k) (setActiveView v base)))
                 None)
            = currentPageWords base (currentPageIndex base + 1)) as ->.
    { unfold wordsForBoxes, currentPageWords. cbn.
      destruct (isMultipage base); [| reflexivity].
      symmetry. apply tagged_filters_agree. now rewrite Hwords. }
    now rewrite Hk.
Qed.

Lemma selection_names_a_drawn_box_witness :
  exists st',
    highlightField_settled "invoice_number" true Fixtures.viewingPage1 = Returned st'
    /\ (selectedIndex st' = selectedIndex Fixtures.viewingPage1
        \/ exists k box,
             selectedIndex st' = Some k
             /\ boundingBoxes (updateBoundingBoxesForCurrentPage None st') !! k = Some box
             /\ bx_id box = k).
Proof.
  eexists. split; [reflexivity |].
  apply (selection_names_a_drawn_box "invoice_number" true Fixtures.viewingPage1).
  - intros w Hw.
    repeat (apply elem_of_cons in Hw as [-> | Hw]; [eexists; split; [reflexivity | discriminate] |]).
    now apply not_elem_of_nil in Hw.
  - reflexivity.
Defined.

(** When the first mapped token is on the page shown, [highlightField]
    selects at once: no callback is scheduled, page and image stay, and the
    selection is the first token of the page with the text and geometry of
    the mapped one. *)
Theorem highlightField_on_shown_page
    (st : State) (fieldPath : string) (stayOnExtractionView : bool)
    (x : mval) (rest : list mval) (w : OcrWord) :
  getNestedValue (mapping st) fieldPath = Some (MArr (x :: rest)) ->
  word_at (ocrWords st) (Some x) = Some w ->
  page_or_1 w - 1 = currentPageIndex st ->
  exists st' k,
    highlightField fieldPath stayOnExtractionView st = Returned (st', [])
    /\ findIndex (same_token w) (currentPageWords st (page_or_1 w)) = Some k
    /\ selectedIndex st' = Some k
    /\ currentPageIndex st' = currentPageIndex st
    /\ imageSrc st' = imageSrc st.
Proof.
  intros Hmap Hat Hpage.
  destruct (highlightWords_selects_first_listed st fieldPath x rest w Hmap Hat)
    as (k & Hk & Hrun).
  exists (if stayOnExtractionView then setSelectedIndex (Some k) st
          else setActiveView ViewOcr (setSelectedIndex (Some k) st)), k.
  split; [| split; [exact Hk | now destruct stayOnExtractionView]].
  unfold highlightField, handleExtractedFieldClick.
  rewrite Hmap. cbn [or_empty truthy]. rewrite length_is_zero_cons.
  change (get_prop (MArr (x :: rest)) "0") with (Some x). rewrite Hat.
  apply Z.eqb_eq in Hpage. rewrite Hpage. cbn [negb]. now rewrite Hrun.
Qed.

Lemma highlightField_on_shown_page_witness :
  exists st' k,
    highlightField "invoice_number" true (goToNextPage Fixtures.viewingPage1)
    = Returned (st', [])
    /\ findIndex (same_token (mkWord "INV-001" (Fixtures.quad 60 10) (Some 2)))
         (currentPageWords (goToNextPage Fixtures.viewingPage1) 2)
       = Some k
    /\ selectedIndex st' = Some k
    /\ currentPageIndex st' = 1
    /\ imageSrc st' = "page-2.png".
Proof.
  apply (highlightField_on_shown_page (goToNextPage Fixtures.viewingPage1)
           "invoice_number" true (MNum 6) []
           (mkWord "INV-001" (Fixtures.quad 60 10) (Some 2))); reflexivity.
Defined.

Lemma highlightTableCellOnPage_frame (cellIndices : list mval) (p : Z) (st : State) :
  highlightTableCellOnPage cellIndices p st = st
  \/ exists k, highlightTableCellOnPage cellIndices p st = setSelectedIndex (Some k) st.
Proof.
  unfold highlightTableCellOnPage. destruct (word_at _ _) as [w|]; [| now left].
  destruct (findIndex _ _) as [k|]; [right; now exists k | now left].
Qed.

(** The second block of [highlightTableCell] never runs: it is entered
    under the very condition under which the first one returns. *)
Lemma highlightTableCell_first_block
    (fieldName : string) (rowIndex : nat) (columnName : string) (st : State) :
  highlightTableCell fieldName rowIndex columnName st
  = default (st, []) (cellBlock fieldName rowIndex columnName st).
Proof. unfold highlightTableCell. now destruct (cellBlock _ _ _ _). Qed.

Lemma shows_switched (st : State) (p : Z) : shows_current_page (switched st p).
Proof. reflexivity. Qed.

Lemma after_highlightField_shows (fieldPath : string) (stay : bool) (st : State) :
  shows_current_page st -> shows_current_page (after_highlightField fieldPath stay st).
Proof.
  intros Hst. unfold after_highlightField, highlightField.
  destruct (click_cases fieldPath st) as [-> | [(w & _ & ->) | (w & _ & ->)]].
  - cbn. now destruct stay.
  - cbn [fire_all fire].
    destruct (highlightWordsOnCurrentPage _ _ _) as [st2|] eqn:Hrun.
    + apply highlightWords_frame in Hrun as [-> | (k & w' & -> & _)]; now destruct stay.
    + now destruct stay.
  - destruct (highlightWordsOnCurrentPage _ _ _) as [st2|] eqn:Hrun; [| exact Hst].
    cbn. apply highlightWords_frame in Hrun as [-> | (k & w' & -> & _)]; now destruct stay.
Qed.

Lemma highlightTableCell_shows
    (fieldName : string) (rowIndex : nat) (columnName : string) (st : State) :
  shows_current_page st ->
  shows_current_page (highlightTableCell_settled fieldName rowIndex columnName st).
Proof.
  intros Hst. unfold highlightTableCell_settled.
  rewrite highlightTableCell_first_block. unfold cellBlock.
  destruct (get_prop (mapping st) fieldName) as [[| |rows|]|]; try exact Hst.
  destruct (rows !! rowIndex) as [[| | |columns]|]; try exact Hst.
  destruct (obj_get columns columnName) as [[| |[|x others]|]|]; try exact Hst.
  destruct (word_at (ocrWords st) (Some x)) as [w|]; [| exact Hst].
  destruct (negb (page_or_1 w - 1 =? currentPageIndex st)); cbn.
  - destruct (highlightTableCellOnPage_frame (x :: others) (page_or_1 w)
                (switched st (page_or_1 w))) as [Hsame | [k Hk]].
    + unfold switched in Hsame. now rewrite Hsame.
    + unfold switched in Hk. now rewrite Hk.
  - destruct (highlightTableCellOnPage_frame (x :: others) (page_or_1 w) st)
      as [-> | [k ->]]; exact Hst.
Qed.

Lemma act_shows (a : Action) (st : State) :
  shows_current_page st -> shows_current_page (act a st).
Proof.
  intros Hst. destruct a; cbn [act].
  - unfold goToPreviousPage. now destruct (0 <? currentPageIndex st).
  - unfold goToNextPage. now destruct (currentPageIndex st <? totalPages st - 1).
  - now apply after_highlightField_shows.
  - now apply highlightTableCell_shows.
  - exact Hst.
  - exact Hst.
Qed.

(** Once the images are loaded, the image on screen is always the one
    listed for the current page index, whatever the user does next: paging,
    clicking fields, cells or boxes, changing the view.  (When the URL
    request fails, the fallback keeps the page index it finds, so the index
    has to be 0, as it is on a fresh page.) *)
Theorem image_follows_page_index
    (id : string) (reply : UrlReply) (st : State) (actions : list Action) :
  (reply = UrlThrows -> currentPageIndex st = 0) ->
  shows_current_page (acts actions (loadImages id reply st)).
Proof.
  intros Hfresh.
  assert (shows_current_page (loadImages id reply st)) as Hloaded.
  { destruct reply as [[|] [urls|] total single|]; try reflexivity.
    unfold shows_current_page, loadImages. cbn. now rewrite Hfresh. }
  unfold acts. revert Hloaded. generalize (loadImages id reply st).
  induction actions as [|a actions IH]; intros st0 Hst0; [exact Hst0 |].
  cbn [fold_left]. apply IH. now apply act_shows.
Qed.

Lemma image_follows_page_index_witness :
  shows_current_page
    (acts [NextPage; ClickField "invoice_number" true; PreviousPage; ClickBox 2]
       (loadImages "doc-1" (UrlData true (Some Fixtures.twoPageUrls) 2 "")
          Fixtures.brokenPage)).
Proof.
  apply (image_follows_page_index "doc-1" (UrlData true (Some Fixtures.twoPageUrls) 2 "")
           Fixtures.brokenPage).
  discriminate.
Defined.

(** Paging forward and back again shows the page one came from: same page
    index, its image, its boxes, and no selection. *)
Theorem next_then_previous_returns (st : State) :
  0 <= currentPageIndex st ->
  currentPageIndex st < totalPages st - 1 ->
  currentPageIndex (goToPreviousPage (goToNextPage st)) = currentPageIndex st
  /\ imageSrc (goToPreviousPage (goToNextPage st))
     = url_at (imageUrls st) (currentPageIndex st)
  /\ boundingBoxes (goToPreviousPage (goToNextPage st))
     = imap box_of (wordsForBoxes st (currentPageIndex st))
  /\ selectedIndex (goToPreviousPage (goToNextPage st)) = None.
Proof.
  intros Hlo Hhi. unfold goToNextPage.
  destruct (Z.ltb_spec (currentPageIndex st) (totalPages st - 1)); [| lia].
  unfold goToPreviousPage. cbn [currentPageIndex setSelectedIndex
    updateBoundingBoxesForCurrentPage setBoundingBoxes setImageSrc setCurrentPageIndex].
  destruct (Z.ltb_spec 0 (currentPageIndex st + 1)); [| lia].
  replace (currentPageIndex st + 1 - 1) with (currentPageIndex st) by lia.
  repeat split.
Qed.

Lemma next_then_previous_returns_witness :
  currentPageIndex (goToPreviousPage (goToNextPage Fixtures.viewingPage1)) = 0
  /\ imageSrc (goToPreviousPage (goToNextPage Fixtures.viewingPage1)) = "page-1.png"
  /\ boundingBoxes (goToPreviousPage (goToNextPage Fixtures.viewingPage1))
     = imap box_of (wordsForBoxes Fixtures.viewingPage1 0)
  /\ selectedIndex (goToPreviousPage (goToNextPage Fixtures.viewingPage1)) = None.
Proof.
  apply (next_then_previous_returns Fixtures.viewingPage1); simpl; lia.
Defined.

Lemma cellOnPage_selects
    (st : State) (x : mval) (others : list mval) (w : OcrWord) (p : Z) (k : nat) :
  word_at (ocrWords st) (Some x) = Some w ->
  findIndex (same_token w) (currentPageWords st p) = Some k ->
  highlightTableCellOnPage (x :: others) p st = setSelectedIndex (Some k) st.
Proof.
  intros Hat Hk. unfold highlightTableCellOnPage.
  change ((x :: others) !! 0%nat) with (Some x). now rewrite Hat, Hk.
Qed.

Lemma cell_path_resolves
    (m : mval) (f c : string) (r : nat) (rows : list mval)
    (columns : list (string * mval)) (cell : mval) :
  dot_free f = true -> dot_free c = true ->
  get_prop m f = Some (MArr rows) ->
  rows !! r = Some (MObj columns) ->
  obj_get columns c = Some cell ->
  getNestedValue m (f ++ "." ++ string_of_index r ++ "." ++ c) = Some cell.
Proof.
  intros Hf Hc Hrows Hrow Hcell. unfold getNestedValue.
  rewrite !split_dot_app, (split_dot_free f Hf), (split_dot_free c Hc),
    (split_dot_free _ (string_of_index_dot_free r)).
  cbn [app fold_left].
  assert (truthy m = true) as -> by (destruct m; try discriminate; reflexivity).
  rewrite Hrows. cbn [truthy]. rewrite get_prop_row, Hrow. cbn [truthy get_prop].
  exact Hcell.
Qed.

(** A click on the cell (field, row, column) of a list-shaped mapping does
    what a click on the field path "field.row.column" does: the same page
    switch and the same selection, once the callbacks have run. *)
Theorem highlightTableCell_agrees_with_highlightField
    (st : State) (f c : string) (r : nat) (rows : list mval)
    (columns : list (string * mval)) (cell : list mval) :
  dot_free f = true -> dot_free c = true ->
  get_prop (mapping st) f = Some (MArr rows) ->
  rows !! r = Some (MObj columns) ->
  obj_get columns c = Some (MArr cell) ->
  highlightField_settled (f ++ "." ++ string_of_index r ++ "." ++ c) true st
  = Returned (highlightTableCell_settled f r c st).
Proof.
  intros Hf Hc Hrows Hrow Hcell.
  pose proof (cell_path_resolves (mapping st) f c r rows columns (MArr cell)
                Hf Hc Hrows Hrow Hcell) as Hpath.
  set (path := f ++ "." ++ string_of_index r ++ "." ++ c) in *.
  unfold highlightTableCell_settled. rewrite highlightTableCell_first_block.
  unfold cellBlock. rewrite Hrows, Hrow, Hcell.
  unfold highlightField_settled, highlightField, handleExtractedFieldClick.
  rewrite Hpath. cbn [or_empty truthy].
  destruct cell as [|x others]; [reflexivity |].
  rewrite length_is_zero_cons.
  change (get_prop (MArr (x :: others)) "0") with (Some x).
  destruct (word_at (ocrWords st) (Some x)) as [w|] eqn:Hat; [| reflexivity].
  destruct (Z.eqb_spec (page_or_1 w - 1) (currentPageIndex st)) as [Heq | Hne];
    cbn [negb default].
  - destruct (highlightWords_selects_first_listed st path x others w Hpath Hat)
      as (k & Hk & ->).
    rewrite (cellOnPage_selects st x others w _ k Hat Hk). reflexivity.
  - cbn [fire_all fire].
    destruct (highlightWords_selects_first_listed (switched st (page_or_1 w)) path
                x others w Hpath Hat) as (k & Hk & Hrun).
    pose proof (cellOnPage_selects (switched st (page_or_1 w)) x others w _ k Hat Hk)
      as Hcellrun.
    unfold switched in Hrun, Hcellrun. rewrite Hrun.
    unfold id. cbn [fold_left fireCell]. now rewrite Hcellrun.
Qed.

Lemma highlightTableCell_agrees_with_highlightField_witness :
  highlightField_settled ("lines" ++ "." ++ string_of_index 1 ++ "." ++ "item") true
    Samples.tablePage
  = Returned (highlightTableCell_settled "lines" 1 "item" Samples.tablePage).
Proof.
  apply (highlightTableCell_agrees_with_highlightField Samples.tablePage "lines" "item" 1
           [MObj [("item", MArr [MNum 1]); ("qty", MArr [])];
            MObj [("item", MArr [MNum 6; MNum 7]); ("qty", MArr [MNum 4])]]
           [("item", MArr [MNum 6; MNum 7]); ("qty", MArr [MNum 4])]
           [MNum 6; MNum 7]); reflexivity.
Defined.

End HighlightMoreFacts.

(** ** More on the heuristic mapping *)

Module FallbackMoreFacts.

Import Review Page Design JsFacts.

Lemma filter_matches_cons (c : OcrWord -> bool) (n : nat) (w : OcrWord) (l : list OcrWord) :
  List.filter (fun index => negb (index =? -1))
    (imap (fun index result => if c result then Z.of_nat (n + index) else -1) (w :: l))
  = ((if c w then [Z.of_nat n] else [])
     ++ List.filter (fun index => negb (index =? -1))
          (imap (fun index result => if c result then Z.of_nat (S n + index) else -1) l))%list.
Proof.
  rewrite imap_cons. cbn [List.filter].
  assert (imap ((fun index result => if c result then Z.of_nat (n + index) else -1) ∘ S) l
          = imap (fun index result => if c result then Z.of_nat (S n + index) else -1) l)
    as -> by (apply imap_ext; intros i x _; cbn; now rewrite Nat.add_succ_r).
  rewrite Nat.add_0_r. destruct (c w); [| reflexivity].
  destruct (Z.eqb_spec (Z.of_nat n) (-1)); [lia | reflexivity].
Qed.

Lemma matches_sorted_from (c : OcrWord -> bool) (l : list OcrWord) (n : nat) :
  StronglySorted Z.lt
    (List.filter (fun index => negb (index =? -1))
       (imap (fun index result => if c result then Z.of_nat (n + index) else -1) l))
  /\ Forall (fun z => Z.of_nat n <= z < Z.of_nat (n + length l))
       (List.filter (fun index => negb (index =? -1))
          (imap (fun index result => if c result then Z.of_nat (n + index) else -1) l)).
Proof.
  revert n. induction l as [|w l IH]; intros n.
  - split; constructor.
  - rewrite filter_matches_cons. destruct (IH (S n)) as [Hsorted Hrange].
    assert (Forall (fun z => Z.of_nat n <= z < Z.of_nat (n + length (w :: l)))
              (List.filter (fun index => negb (index =? -1))
                 (imap (fun index result => if c result then Z.of_nat (S n + index) else -1)
                    l))) as Hrange'.
    { eapply Forall_impl; [exact Hrange |]. cbn [length]. intros z Hz. lia. }
    destruct (c w); cbn [app].
    + split.
      * constructor; [exact Hsorted |].
        eapply Forall_impl; [exact Hrange |]. intros z Hz. cbn beta in Hz. lia.
      * constructor; [cbn [length]; lia | exact Hrange'].
    + split; [exact Hsorted | exact Hrange'].
Qed.

(** [findMatchingIndices] lists positions of the token list in strictly
    increasing order; in particular no position twice. *)
Theorem findMatchingIndices_increasing (ocrWords : list OcrWord) (value : string) :
  StronglySorted Z.lt (findMatchingIndices ocrWords value)
  /\ Forall (fun z => 0 <= z < Z.of_nat (length ocrWords))
       (findMatchingIndices ocrWords value).
Proof.
  unfold findMatchingIndices.
  destruct (String.eqb value "" || (length ocrWords =? 0)%nat); [split; constructor |].
  apply (matches_sorted_from
           (fun result => includes (normalize (content result)) (normalize value))
           ocrWords 0).
Qed.

Lemma includes_empty (s : string) : includes s "" = true.
Proof. now destruct s. Qed.

Lemma filter_positions (l : list nat) :
  List.filter (fun index => negb (index =? -1)) (Z.of_nat <$> l) = Z.of_nat <$> l.
Proof.
  induction l as [|i l IH]; [reflexivity |]. cbn [fmap list_fmap List.filter].
  destruct (Z.eqb_spec (Z.of_nat i) (-1)); [lia |]. cbn [negb].
  f_equal. exact IH.
Qed.

(** A value that is not empty but consists of whitespace only selects
    every token: its normalized form is the empty string, which every
    content includes. *)
Theorem blank_value_selects_every_token (ocrWords : list OcrWord) (value : string) :
  value <> "" ->
  normalize value = "" ->
  findMatchingIndices ocrWords value = Z.of_nat <$> seq 0 (length ocrWords).
Proof.
  intros Hvalue Hblank. unfold findMatchingIndices.
  destruct (String.eqb_spec value ""); [congruence |]. cbn [orb].
  destruct ocrWords as [|w words]; [reflexivity |]. cbn [length Nat.eqb].
  rewrite Hblank.
  rewrite (imap_ext _ (fun index _ => Z.of_nat index) (w :: words))
    by (intros i x _; now rewrite includes_empty).
  rewrite imap_seq_0. apply filter_positions.
Qed.

Lemma blank_value_selects_every_token_witness :
  findMatchingIndices Fixtures.vendorWords "  " = [0; 1].
Proof.
  apply (blank_value_selects_every_token Fixtures.vendorWords "  ");
    [discriminate | reflexivity].
Defined.

Lemma is_space_lower_char (c : ascii) : is_space (lower_char c) = is_space c.
Proof. destruct c as [[] [] [] [] [] [] [] []]; reflexivity. Qed.

Lemma lower_char_idempotent (c : ascii) : lower_char (lower_char c) = lower_char c.
Proof. destruct c as [[] [] [] [] [] [] [] []]; reflexivity. Qed.

Lemma strip_spaces_toLowerCase (s : string) :
  strip_spaces (toLowerCase s) = toLowerCase (strip_spaces s).
Proof.
  induction s as [|c s IH]; [reflexivity |]. cbn [toLowerCase strip_spaces].
  rewrite is_space_lower_char. destruct (is_space c); cbn [toLowerCase]; now rewrite IH.
Qed.

Lemma strip_spaces_idempotent (s : string) : strip_spaces (strip_spaces s) = strip_spaces s.
Proof.
  induction s as [|c s IH]; [reflexivity |]. cbn [strip_spaces].
  destruct (is_space c) eqn:Hc; [exact IH |]. cbn [strip_spaces]. now rewrite Hc, IH.
Qed.

Lemma toLowerCase_idempotent (s : string) : toLowerCase (toLowerCase s) = toLowerCase s.
Proof.
  induction s as [|c s IH]; [reflexivity |]. cbn [toLowerCase].
  now rewrite lower_char_idempotent, IH.
Qed.

Lemma normalize_idempotent (s : string) : normalize (normalize s) = normalize s.
Proof.
  unfold normalize.
  now rewrite strip_spaces_toLowerCase, strip_spaces_idempotent, toLowerCase_idempotent.
Qed.

Lemma lower_char_ascii7 (c : ascii) : is_ascii7 (lower_char c) = is_ascii7 c.
Proof. destruct c as [[] [] [] [] [] [] [] []]; reflexivity. Qed.

Lemma normalize_seven_bit (s : string) :
  seven_bit s = true -> seven_bit (normalize s) = true.
Proof.
  unfold normalize. induction s as [|c s IH]; [reflexivity |].
  cbn [seven_bit strip_spaces]. intros [Hc Hs]%andb_prop.
  destruct (is_space c); [now apply IH |].
  cbn [toLowerCase seven_bit]. now rewrite lower_char_ascii7, Hc, IH.
Qed.

(** On 7-bit text, value and token contents alike, the normalized form of
    a value is 7-bit text again, normalizing it once more changes nothing,
    and a field value may be replaced by its normalized form (lower case, no
    whitespace) without changing the tokens found, as long as that form is
    not empty. *)
Theorem matching_ignores_case_and_spacing (ocrWords : list OcrWord) (value : string) :
  seven_bit value = true ->
  Forall (fun w => seven_bit (content w) = true) ocrWords ->
  normalize value <> "" ->
  seven_bit (normalize value) = true
  /\ normalize (normalize value) = normalize value
  /\ findMatchingIndices ocrWords (normalize value) = findMatchingIndices ocrWords value.
Proof.
  intros Hseven _ Hnorm.
  split; [now apply normalize_seven_bit | split; [apply normalize_idempotent |]].
  assert (value <> "") as Hvalue by (intros ->; now apply Hnorm).
  unfold findMatchingIndices. rewrite normalize_idempotent.
  destruct (String.eqb_spec (normalize value) ""); [congruence |].
  now destruct (String.eqb_spec value "").
Qed.

Lemma matching_ignores_case_and_spacing_witness :
  seven_bit (normalize "ACME Corp") = true
  /\ normalize (normalize "ACME Corp") = normalize "ACME Corp"
  /\ findMatchingIndices Fixtures.vendorWords (normalize "ACME Corp")
     = findMatchingIndices Fixtures.vendorWords "ACME Corp".
Proof.
  apply (matching_ignores_case_and_spacing Fixtures.vendorWords "ACME Corp").
  - reflexivity.
  - repeat constructor.
  - discriminate.
Defined.

Lemma emptyColumns_values (columns : list Field) (acc : list (string * mval))
    (key : string) (v : mval) :
  (forall k u, obj_get acc k = Some u -> u = MArr []) ->
  obj_get (fold_left (fun acc column => obj_set acc (name column) (MArr [])) columns acc) key
  = Some v ->
  v = MArr [].
Proof.
  revert acc. induction columns as [|column columns IH]; intros acc Hacc; cbn [fold_left].
  - apply Hacc.
  - apply IH. intros k u. rewrite obj_get_set.
    destruct (String.eqb (name column) k); [now intros [= <-] | apply Hacc].
Qed.

Lemma heuristic_rows (extractedInfo : info) (words : list OcrWord) (field : Field)
    (columns : list Field) :
  type field = "list" ->
  items field = Some ("map", Some columns) ->
  exists n, mappingFor extractedInfo words field = MArr (replicate n (emptyColumns columns)).
Proof.
  intros Htype Hitems. unfold mappingFor. rewrite Htype, Hitems. cbn.
  destruct (read extractedInfo (name field)) as [| | | | |rows|]; try (now exists 0%nat).
  destruct rows as [|row rows]; [now exists 0%nat |].
  exists (S (length rows)). cbn [replicate]. do 2 f_equal.
  clear. induction rows as [|x l IH]; [reflexivity |]. cbn. now rewrite IH.
Qed.

(** With the heuristic mapping in place, a click on a cell of a list field
    with map items never highlights anything: every cell of the generated
    rows holds the empty index array. *)
Theorem heuristic_mapping_highlights_no_cell
    (appFields : list Field) (extractedInfo : info) (st : State)
    (field : Field) (columns : list Field) (rowIndex : nat) (columnName : string) :
  NoDup (map name appFields) ->
  field ∈ appFields ->
  type field = "list" ->
  items field = Some ("map", Some columns) ->
  mapping st = generateSimpleMapping appFields extractedInfo (ocrWords st) ->
  highlightTableCell_settled (name field) rowIndex columnName st = st.
Proof.
  intros Hnd Hin Htype Hitems Hmapping.
  pose proof (FallbackFacts.generateSimpleMapping_lookup appFields extractedInfo
                (ocrWords st) field Hnd Hin) as Hget.
  destruct (heuristic_rows extractedInfo (ocrWords st) field columns Htype Hitems)
    as [n Hrows].
  unfold highlightTableCell_settled, highlightTableCell, cellBlock.
  rewrite Hmapping, Hget, Hrows.
  destruct (replicate n (emptyColumns columns) !! rowIndex) as [rowMapping|] eqn:Hrow;
    [| reflexivity].
  apply lookup_replicate in Hrow as [-> _]. unfold emptyColumns.
  destruct (obj_get _ columnName) as [cell|] eqn:Hcell; [| reflexivity].
  apply emptyColumns_values in Hcell as ->; [reflexivity | discriminate].
Qed.

Lemma heuristic_mapping_highlights_no_cell_witness :
  highlightTableCell_settled "lines" 0 "item" Samples.heuristicTable = Samples.heuristicTable.
Proof.
  apply (heuristic_mapping_highlights_no_cell [Samples.linesField] Samples.linesInfo
           Samples.heuristicTable Samples.linesField
           [mkField "item" "Item" "string" None None]).
  - repeat constructor. apply not_elem_of_nil.
  - apply list_elem_of_here.
  - reflexivity.
  - reflexivity.
  - reflexivity.
Defined.

End FallbackMoreFacts.

(** ** More on polling *)

Module PollerMoreFacts.

Import Poller Steps PollerFacts.

Lemma NoDup_ids_filter (keep : Timer -> bool) (l : list Timer) :
  NoDup (map timer_id l) -> NoDup (map timer_id (List.filter keep l)).
Proof.
  induction l as [|tm l IH]; [trivial |]. cbn [map List.filter].
  intros Hnd. apply NoDup_cons in Hnd as [Hnotin Hnd].
  destruct (keep tm); [| now apply IH]. cbn [map]. apply NoDup_cons. split; [| now apply IH].
  intros Hin. apply Hnotin.
  apply list_elem_of_In, in_map_iff in Hin as (tm' & Hid & Hin).
  apply List.filter_In in Hin as [Hin _].
  apply list_elem_of_In, in_map_iff. now exists tm'.
Qed.

Lemma Forall_filter_keep {A : Type} (P : A -> Prop) (keep : A -> bool) (l : list A) :
  Forall P l -> Forall P (List.filter keep l).
Proof.
  induction 1 as [|x l Hx Hl IH]; [constructor |]. cbn [List.filter].
  destruct (keep x); [now constructor | exact IH].
Qed.

Lemma ids_fresh_clearInterval (t : nat) (st : State) :
  ids_fresh st -> ids_fresh (clearInterval t st).
Proof.
  intros [Hnd Hlt]. split; cbn [clearInterval timers next_timer_id].
  - now apply NoDup_ids_filter.
  - now apply Forall_filter_keep.
Qed.

Lemma ids_fresh_setInterval (o : Origin) (r : nat) (st : State) :
  ids_fresh st -> ids_fresh (snd (setInterval o r st)).
Proof.
  intros [Hnd Hlt]. split; cbn [setInterval snd timers next_timer_id].
  - rewrite map_app. apply NoDup_app. split; [exact Hnd |]. split.
    + intros x Hx Hnew. cbn in Hnew. apply list_elem_of_singleton in Hnew as ->.
      apply list_elem_of_In, in_map_iff in Hx as (tm & Hid & Hin).
      rewrite Forall_forall in Hlt. apply list_elem_of_In, Hlt in Hin. lia.
    + cbn. apply NoDup_singleton.
  - apply Forall_app. split.
    + eapply Forall_impl; [exact Hlt |]. intros tm Htm. cbn beta in Htm. lia.
    + constructor; [cbn; lia | constructor].
Qed.

Lemma ids_fresh_stopPolling (r : nat) (st : State) :
  ids_fresh st -> ids_fresh (stopPolling r st).
Proof.
  intros Hst. unfold stopPolling. destruct (handle r st) as [t|]; [| exact Hst].
  exact (ids_fresh_clearInterval t st Hst).
Qed.

Lemma ids_fresh_startPolling (r : nat) (st : State) :
  ids_fresh st -> ids_fresh (startPolling r st).
Proof.
  intros Hst. unfold startPolling.
  destruct (handle r st) as [t|].
  - exact (ids_fresh_setInterval FromStartPolling r _ (ids_fresh_clearInterval t st Hst)).
  - exact (ids_fresh_setInterval FromStartPolling r _ Hst).
Qed.

Lemma ids_fresh_checkExtractionStatus (r : nat) (reply : StatusReply) (st st' : State) :
  ids_fresh st -> checkExtractionStatus r reply st = Returned st' -> ids_fresh st'.
Proof.
  intros Hst. destruct reply as [refetch| | |]; cbn [checkExtractionStatus];
    intros [= <-].
  - apply ids_fresh_stopPolling. destruct refetch; cbn [fetchExtractionInfo]; try exact Hst.
    now apply (ids_fresh_stopPolling r (setExtractionStatus Completed
                                          (setExtractionStatus Completed st))).
  - now apply (ids_fresh_stopPolling r (setExtractionStatus Failed st)).
  - exact Hst.
Qed.

Lemma ids_fresh_tick (t : nat) (reply : StatusReply) (st : State) :
  ids_fresh st -> ids_fresh (tick t reply st).
Proof.
  intros Hst. unfold tick. destruct (find _ _) as [tm|]; [| exact Hst].
  destruct (timer_origin tm), (scopes st !! timer_scope tm) as [sc|]; try exact Hst.
  - unfold pollTick.
    destruct (checkExtractionStatus _ _ _) as [st2|] eqn:Hcheck.
    + apply ids_fresh_checkExtractionStatus in Hcheck; [| exact Hst].
      destruct (_ && _); [now apply ids_fresh_stopPolling | exact Hcheck].
    + destruct (_ <=? _)%nat; [| exact Hst].
      now apply (ids_fresh_stopPolling _
                   (setExtractionStatus Failed (setPollingAttemptCount S st))).
  - unfold rerunTick. destruct (checkExtractionStatus _ _ _) as [st2|] eqn:Hcheck;
      [| exact Hst].
    apply ids_fresh_checkExtractionStatus in Hcheck; exact Hcheck || exact Hst.
Qed.

Lemma ids_fresh_step (x : Step) (st : State) : ids_fresh st -> ids_fresh (step x st).
Proof.
  intros Hst. destruct x as [|r|r reply|r posted|t reply|r]; cbn [step].
  - exact Hst.
  - now apply ids_fresh_startPolling.
  - unfold startExtraction. destruct reply; try exact Hst.
    now apply (ids_fresh_startPolling r
                 (setPollingAttemptCount (fun _ => 0%nat) (setExtractionStatus Processing st))).
  - unfold rerunOcr. destruct posted; [| exact Hst].
    exact (ids_fresh_setInterval FromRerunOcr r
             (setPollingAttemptCount (fun _ => 0%nat) (setExtractionStatus Processing st))
             Hst).
  - now apply ids_fresh_tick.
  - now apply ids_fresh_stopPolling.
Qed.

(** The ids that [setInterval] hands out are fresh, so every state the
    page reaches satisfies [ids_fresh]. *)
Lemma reachable_ids_fresh (xs : list Step) : ids_fresh (steps xs mounted).
Proof.
  assert (ids_fresh mounted) as Hmounted by (split; constructor).
  unfold steps. revert Hmounted. generalize mounted.
  induction xs as [|x xs IH]; intros st Hst; [exact Hst |].
  cbn [fold_left]. apply IH. now apply ids_fresh_step.
Qed.

Lemma stopPolling_status (r : nat) (st : State) :
  extractionStatus (stopPolling r st) = extractionStatus st.
Proof. unfold stopPolling. now destruct (handle r st). Qed.

Lemma stopPolling_count (r : nat) (st : State) :
  pollingAttemptCount (stopPolling r st) = pollingAttemptCount st.
Proof. unfold stopPolling. now destruct (handle r st). Qed.

Lemma stopPolling_named (r t : nat) (st : State) :
  handle r st = Some t -> ~ live t (stopPolling r st).
Proof.
  intros Hh. unfold stopPolling. rewrite Hh. intros (tm & Hin & Hid).
  apply (clearInterval_not_live t st). now exists tm.
Qed.

Lemma stopPolling_keeps_stopped (r t : nat) (st : State) :
  ~ live t st -> ~ live t (stopPolling r st).
Proof.
  intros Hst (tm & Hin & Hid). apply Hst. exists tm. split; [| exact Hid].
  unfold stopPolling in Hin. destruct (handle r st) as [t'|]; [| exact Hin].
  cbn in Hin. apply list_elem_of_In, List.filter_In in Hin as [Hin _].
  now apply list_elem_of_In.
Qed.

Lemma checkExtractionStatus_completed (r t : nat) (refetch : FetchReply) (st : State) :
  handle r st = Some t ->
  exists st',
    checkExtractionStatus r (StatusCompleted refetch) st = Returned st'
    /\ ~ live t st'
    /\ extractionStatus st' = statusAfterRefetch refetch
    /\ pollingAttemptCount st' = pollingAttemptCount st.
Proof.
  intros Hh. eexists. split; [reflexivity |]. split; [| split].
  - destruct refetch; cbn [fetchExtractionInfo].
    + apply stopPolling_keeps_stopped. now apply stopPolling_named.
    + now apply stopPolling_named.
    + now apply stopPolling_named.
    + now apply stopPolling_named.
  - rewrite stopPolling_status. destruct refetch; cbn [fetchExtractionInfo];
      rewrite ?stopPolling_status; reflexivity.
  - rewrite stopPolling_count. destruct refetch; cbn [fetchExtractionInfo];
      rewrite ?stopPolling_count; reflexivity.
Qed.

(** A tick on which the status endpoint says "completed" always ends the
    poller that ticked, whatever the fetch of the extraction then answers;
    the status shown is the one of that fetch: completed, failed, or still
    processing with nobody polling any more.  A "failed" tick ends the
    poller with status failed. *)
Theorem terminal_tick_stops_the_poller
    (st : State) (t : nat) (tm : Timer) (sc : Scope) (refetch : FetchReply) :
  find (fun tm => (timer_id tm =? t)%nat) (timers st) = Some tm ->
  scopes st !! timer_scope tm = Some sc ->
  statusCheckTimer sc = Some t ->
  (~ live t (tick t (StatusCompleted refetch) st)
   /\ extractionStatus (tick t (StatusCompleted refetch) st) = statusAfterRefetch refetch)
  /\ (~ live t (tick t StatusFailed st)
      /\ extractionStatus (tick t StatusFailed st) = Failed).
Proof.
  intros Hfind Hscope Hnamed. unfold tick. rewrite Hfind, Hscope.
  assert (forall st0, scopes st0 = scopes st -> handle (timer_scope tm) st0 = Some t)
    as Hhandle by (intros st0 Hsame; unfold handle; now rewrite Hsame, Hscope).
  split.
  - destruct (timer_origin tm).
    + unfold pollTick.
      destruct (checkExtractionStatus_completed (timer_scope tm) t refetch
                  (setPollingAttemptCount S st) (Hhandle _ eq_refl))
        as (st2 & -> & Hstopped & Hstatus & _).
      destruct (_ && _); rewrite ?stopPolling_status;
        split; auto using stopPolling_keeps_stopped.
    + unfold rerunTick.
      destruct (checkExtractionStatus_completed (timer_scope tm) t refetch st
                  (Hhandle _ eq_refl)) as (st2 & -> & Hstopped & Hstatus & _).
      split; [exact Hstopped | exact Hstatus].
  - destruct (timer_origin tm).
    + unfold pollTick. cbn [checkExtractionStatus].
      destruct (_ && _); rewrite ?stopPolling_status; split;
        auto using stopPolling_keeps_stopped, stopPolling_named.
    + unfold rerunTick. cbn [checkExtractionStatus]. split.
      * apply (stopPolling_named (timer_scope tm) t (setExtractionStatus Failed st)).
        now apply Hhandle.
      * apply stopPolling_status.
Qed.

Lemma terminal_tick_stops_the_poller_witness :
  (~ live 0 (tick 0 (StatusCompleted FetchOther) (startExtraction 0 PostSuccess mounted))
   /\ extractionStatus
        (tick 0 (StatusCompleted FetchOther) (startExtraction 0 PostSuccess mounted))
      = Processing)
  /\ (~ live 0 (tick 0 StatusFailed (startExtraction 0 PostSuccess mounted))
      /\ extractionStatus (tick 0 StatusFailed (startExtraction 0 PostSuccess mounted))
         = Failed).
Proof.
  apply (terminal_tick_stops_the_poller (startExtraction 0 PostSuccess mounted) 0
           (mkTimer 0 FromStartPolling 0) (mkScope 0 Pending (Some 0%nat)) FetchOther);
    reflexivity.
Defined.

Lemma rerun_tick_inconclusive (st : State) (t : nat) (tm : Timer) (reply : StatusReply) :
  find (fun tm => (timer_id tm =? t)%nat) (timers st) = Some tm ->
  timer_origin tm = FromRerunOcr ->
  is_Some (scopes st !! timer_scope tm) ->
  inconclusive reply ->
  timers (tick t reply st) = timers st
  /\ scopes (tick t reply st) = scopes st
  /\ pollingAttemptCount (tick t reply st)
     = (pollingAttemptCount st + if answered reply then 1 else 0)%nat.
Proof.
  intros Hfind Horigin [sc Hscope] Hreply. unfold tick.
  rewrite Hfind, Horigin, Hscope. unfold rerunTick.
  destruct Hreply as [-> | ->]; cbn; repeat split; lia.
Qed.

(** The poller made by [rerunOcr] has no attempt budget: however many
    ticks come back without a terminal status, it stays live; and a tick
    whose status query raises is not counted. *)
Theorem rerun_poller_has_no_budget
    (replies : list StatusReply) (st : State) (t : nat) (tm : Timer) :
  find (fun tm => (timer_id tm =? t)%nat) (timers st) = Some tm ->
  timer_origin tm = FromRerunOcr ->
  is_Some (scopes st !! timer_scope tm) ->
  Forall inconclusive replies ->
  timers (tickEach t replies st) = timers st
  /\ pollingAttemptCount (tickEach t replies st)
     = (pollingAttemptCount st + length (List.filter answered replies))%nat.
Proof.
  intros Hfind Horigin Hscope Hall. revert st Hfind Hscope.
  induction Hall as [|reply replies Hreply Hall IH]; intros st Hfind Hscope.
  - cbn. split; [reflexivity | lia].
  - unfold tickEach. cbn [fold_left]. fold (tickEach t replies (tick t reply st)).
    destruct (rerun_tick_inconclusive st t tm reply Hfind Horigin Hscope Hreply)
      as (Ht & Hs & Hc).
    destruct (IH (tick t reply st)) as [Ht' Hc'].
    { now rewrite Ht. }
    { now rewrite Hs. }
    rewrite Ht', Hc', Ht, Hc. split; [reflexivity |].
    cbn [List.filter]. destruct (answered reply); cbn [length]; lia.
Qed.

Lemma rerun_poller_has_no_budget_witness :
  timers (tickEach 0 (replicate 25 StatusOther ++ [StatusThrows])
            (rerunOcr 0 true mounted))
  = timers (rerunOcr 0 true mounted)
  /\ pollingAttemptCount
       (tickEach 0 (replicate 25 StatusOther ++ [StatusThrows]) (rerunOcr 0 true mounted))
     = 25%nat.
Proof.
  apply (rerun_poller_has_no_budget (replicate 25 StatusOther ++ [StatusThrows])
           (rerunOcr 0 true mounted) 0 (mkTimer 0 FromRerunOcr 0)).
  - reflexivity.
  - reflexivity.
  - now eexists.
  - apply Forall_app. split.
    + apply Forall_replicate. now left.
    + constructor; [now right | constructor].
Defined.

Lemma filter_out_one (t : nat) (l : list Timer) :
  NoDup (map timer_id l) ->
  (exists tm, tm ∈ l /\ timer_id tm = t) ->
  S (length (List.filter (fun tm => negb (timer_id tm =? t)%nat) l)) = length l.
Proof.
  induction l as [|tm l IH]; intros Hnd (x & Hx & Hid).
  - now apply not_elem_of_nil in Hx.
  - cbn [map] in Hnd. apply NoDup_cons in Hnd as [Hnotin Hnd]. cbn [List.filter length].
    destruct (Nat.eqb_spec (timer_id tm) t) as [Heq | Hne]; cbn [negb length].
    + f_equal. clear IH Hx. induction l as [|y l IHl]; [reflexivity |].
      cbn [List.filter map] in *. apply not_elem_of_cons in Hnotin as [Hy Hnotin].
      apply NoDup_cons in Hnd as [_ Hnd].
      destruct (Nat.eqb_spec (timer_id y) t); [congruence |]. cbn [negb length].
      f_equal. now apply IHl.
    + f_equal. apply IH; [exact Hnd |].
      apply elem_of_cons in Hx as [-> | Hx]; [congruence | now exists x].
Qed.

(** Restarting from the render that holds the handle replaces the timer:
    the old interval is cleared, the new one is live and named by the
    handle, and the number of live timers is what it was. *)
Theorem startPolling_replaces_its_timer (st : State) (r t : nat) :
  ids_fresh st ->
  handle r st = Some t ->
  live t st ->
  length (timers (startPolling r st)) = length (timers st)
  /\ ~ live t (startPolling r st)
  /\ live (next_timer_id st) (startPolling r st)
  /\ handle r (startPolling r st) = Some (next_timer_id st).
Proof.
  intros [Hnd Hlt] Hh Hlive.
  assert (is_Some (scopes st !! r)) as Hscope.
  { unfold handle in Hh. destruct (scopes st !! r); [now eexists | discriminate]. }
  assert (t < next_timer_id st)%nat as Hold.
  { destruct Hlive as (tm & Hin & <-). rewrite Forall_forall in Hlt.
    now apply Hlt. }
  rewrite startPolling_timers, Hh. split; [| split; [| split]].
  - rewrite length_app. cbn [length]. rewrite <- (filter_out_one t (timers st) Hnd Hlive). lia.
  - unfold live. rewrite startPolling_timers, Hh. intros (tm & Hin & Hid).
    apply elem_of_app in Hin as [Hin | Hin].
    + apply list_elem_of_In, List.filter_In in Hin as [_ Hne].
      rewrite Hid, Nat.eqb_refl in Hne. discriminate.
    + apply list_elem_of_singleton in Hin as ->. cbn in Hid. lia.
  - unfold live. rewrite startPolling_timers, Hh.
    exists (mkTimer (next_timer_id st) FromStartPolling r). split; [| reflexivity].
    apply elem_of_app. right. apply list_elem_of_here.
  - now apply startPolling_handle.
Qed.

Lemma startPolling_replaces_its_timer_witness :
  length (timers (startPolling 0 (startPolling 0 mounted))) = 1%nat
  /\ ~ live 0 (startPolling 0 (startPolling 0 mounted))
  /\ live 1 (startPolling 0 (startPolling 0 mounted))
  /\ handle 0 (startPolling 0 (startPolling 0 mounted)) = Some 1%nat.
Proof.
  apply (startPolling_replaces_its_timer (startPolling 0 mounted) 0 0).
  - split; repeat constructor. apply not_elem_of_nil.
  - reflexivity.
  - exists (mkTimer 0 FromStartPolling 0). split; [apply list_elem_of_here | reflexivity].
Defined.

(** The unmount cleanup clears the one interval that the handle of its
    render names and no other: a timer started from another render, or one
    whose handle was overwritten, keeps running after the page is gone. *)
Theorem unmount_clears_only_its_handle (st : State) (r t : nat) :
  live t st ->
  handle r st <> Some t ->
  live t (unmount r st).
Proof.
  intros (tm & Hin & Hid) Hother. exists tm. split; [| exact Hid].
  unfold unmount, stopPolling. destruct (handle r st) as [t'|]; [| exact Hin].
  cbn. apply list_elem_of_In, List.filter_In. split; [now apply list_elem_of_In |].
  rewrite Hid. destruct (Nat.eqb_spec t t'); [congruence | reflexivity].
Qed.

Lemma unmount_clears_only_its_handle_witness :
  live 1 (unmount 0
            (startExtraction 1 PostSuccess (render (startExtraction 0 PostSuccess mounted)))).
Proof.
  apply (unmount_clears_only_its_handle
           (startExtraction 1 PostSuccess (render (startExtraction 0 PostSuccess mounted)))
           0 1).
  - exists (mkTimer 1 FromStartPolling 1).
    split; [apply list_elem_of_further, list_elem_of_here | reflexivity].
  - discriminate.
Defined.

End PollerMoreFacts.

(** ** The HTTP client *)

Module ApiFacts.

Import Api.

(** [ensureHttps] is idempotent; its result is empty (only for the empty
    input) or starts with "https://"; and a URL that already starts with
    "https://" is returned as it is. *)
Theorem ensureHttps_idempotent (url : string) :
  ensureHttps (ensureHttps url) = ensureHttps url
  /\ (ensureHttps url = "" <-> url = "")
  /\ (url <> "" -> starts_with "https://" (ensureHttps url) = true)
  /\ (starts_with "https://" url = true -> ensureHttps url = url).
Proof.
  unfold ensureHttps.
  destruct (String.eqb_spec url "") as [-> | Hne]; [repeat split; congruence |].
  destruct (starts_with "https://" url) eqn:Hs.
  - destruct (String.eqb_spec url ""); [congruence |]. rewrite Hs.
    repeat split; congruence.
  - cbn. repeat split; try congruence; try discriminate.
Qed.

Section AgentPollingFacts.

Variable Suggestions : Type.

Lemma pollFrom_times_out (answers : nat -> AgentReply Suggestions) (remaining attempt : nat) :
  (forall k, (attempt <= k < attempt + remaining)%nat -> answers k = AgentOther) ->
  pollFrom answers attempt remaining
  = (AgentError "Agent processing timed out", remaining, remaining).
Proof.
  revert attempt. induction remaining as [|remaining IH]; intros attempt Hall;
    [reflexivity |].
  cbn [pollFrom]. rewrite (Hall attempt) by lia.
  rewrite (IH (S attempt)) by (intros k Hk; apply Hall; lia). reflexivity.
Qed.

Lemma pollFrom_first_terminal
    (answers : nat -> AgentReply Suggestions) (j remaining attempt : nat) :
  (j < remaining)%nat ->
  (forall k, (k < j)%nat -> answers (attempt + k)%nat = AgentOther) ->
  answers (attempt + j)%nat <> AgentOther ->
  pollFrom answers attempt remaining = (verdict (answers (attempt + j)%nat), S j, j).
Proof.
  revert remaining attempt. induction j as [|j IH]; intros remaining attempt Hj Hwait Hend.
  - destruct remaining as [|remaining]; [lia |]. cbn [pollFrom].
    rewrite Nat.add_0_r in *. now destruct (answers attempt).
  - destruct remaining as [|remaining]; [lia |]. cbn [pollFrom].
    pose proof (Hwait 0%nat ltac:(lia)) as H0. rewrite Nat.add_0_r in H0. rewrite H0.
    rewrite (IH remaining (S attempt)).
    + now replace (S attempt + j)%nat with (attempt + S j)%nat by lia.
    + lia.
    + intros k Hk. replace (S attempt + k)%nat with (attempt + S k)%nat by lia.
      apply Hwait. lia.
    + now replace (S attempt + j)%nat with (attempt + S j)%nat by lia.
Qed.

(** When every answer within the budget is non-terminal,
    [pollAgentJobStatus] gives up with "Agent processing timed out" after
    exactly [maxAttempts] queries and as many waits; with a budget of 0 it
    does so without asking once. *)
Theorem agent_poll_times_out (answers : nat -> AgentReply Suggestions) (maxAttempts : nat) :
  (forall k, (k < maxAttempts)%nat -> answers k = AgentOther) ->
  pollAgentJobStatus answers maxAttempts
  = (AgentError "Agent processing timed out", maxAttempts, maxAttempts).
Proof.
  intros Hall. apply pollFrom_times_out. intros k Hk. apply Hall. lia.
Qed.

(** The first terminal answer within the budget decides: after [j]
    non-terminal answers, answer number [j] ends the loop with its verdict
    after [j + 1] queries and [j] waits, and no later answer is asked for. *)
Theorem agent_poll_stops_at_first_terminal
    (answers : nat -> AgentReply Suggestions) (maxAttempts j : nat) :
  (j < maxAttempts)%nat ->
  (forall k, (k < j)%nat -> answers k = AgentOther) ->
  answers j <> AgentOther ->
  pollAgentJobStatus answers maxAttempts = (verdict (answers j), S j, j).
Proof.
  intros Hj Hwait Hend. apply (pollFrom_first_terminal answers j maxAttempts 0); assumption.
Qed.

End AgentPollingFacts.

Lemma agent_poll_times_out_witness :
  pollAgentJobStatus (fun _ => @AgentOther unit) 60
  = (AgentError "Agent processing timed out", 60%nat, 60%nat).
Proof. apply (agent_poll_times_out unit (fun _ => AgentOther) 60). reflexivity. Defined.

Lemma agent_poll_stops_at_first_terminal_witness :
  pollAgentJobStatus
    (fun k => if (k =? 2)%nat then AgentFailed "" else @AgentOther unit) 60
  = (AgentError "Agent processing failed", 3%nat, 2%nat).
Proof.
  apply (agent_poll_stops_at_first_terminal unit
           (fun k => if (k =? 2)%nat then AgentFailed "" else AgentOther) 60 2).
  - lia.
  - intros k Hk. destruct k as [|[|k]]; [reflexivity | reflexivity | lia].
  - discriminate.
Defined.

End ApiFacts.

(** ** More on the edit session *)

Module EditMoreFacts.

Import EditSession Steps JsFacts.

Lemma obj_set_set {V : Type} (kv : list (string * V)) (key : string) (v v' : V) :
  obj_set (obj_set kv key v) key v' = obj_set kv key v'.
Proof.
  induction kv as [|[k w] kv IH]; cbn [obj_set].
  - now rewrite String.eqb_refl.
  - destruct (String.eqb k key) eqn:Hk; cbn [obj_set]; rewrite Hk; [reflexivity |].
    now rewrite IH.
Qed.

Lemma obj_set_same {V : Type} (kv : list (string * V)) (key : string) (v : V) :
  obj_get kv key = Some v -> obj_set kv key v = kv.
Proof.
  induction kv as [|[k w] kv IH]; cbn [obj_get obj_set]; [discriminate |].
  destruct (String.eqb_spec k key) as [-> | _].
  - now intros [= ->].
  - intros H. now rewrite IH.
Qed.

Lemma read_array (obj : info) (key : string) (rows : list ival) :
  read obj key = VArr rows -> obj_get obj key = Some (VArr rows).
Proof. unfold read. destruct (obj_get obj key); cbn; [now intros -> | discriminate]. Qed.

Lemma read_set (obj : info) (key key' : string) (v : ival) :
  read (obj_set obj key v) key' = if String.eqb key key' then v else read obj key'.
Proof. unfold read. rewrite obj_get_set. now destruct (String.eqb key key'). Qed.

(** After a handler that hands the page a new value tree (a top-level
    edit, adding or removing a row or an item, saving), the live value is
    the component's buffer: edits of nested leaves made before go live with
    it. *)
Theorem page_receives_the_whole_buffer (ev : Event) (s : Session) :
  notifiesPage ev s = true ->
  handler ev s <> Thrown ->
  extractedInfo (dispatch ev s) = editedInfo (dispatch ev s).
Proof.
  intros Hnotify Hruns. unfold dispatch. rewrite Hnotify. cbn [orb].
  destruct ev; try discriminate; cbn [handler notifiesPage] in *.
  - unfold toggleEditMode. rewrite Hnotify. reflexivity.
  - unfold syncEffect. cbn. now destruct (editMode s).
  - unfold removeRow in *. destruct (arr_spread _); [| congruence].
    unfold syncEffect. cbn. now destruct (editMode s).
  - unfold addRow in *. destruct (arr_spread _); [| congruence].
    unfold syncEffect. cbn. now destruct (editMode s).
  - unfold addItem in *. destruct (arr_spread _); [| congruence].
    unfold syncEffect. cbn. now destruct (editMode s).
Qed.

Lemma page_receives_the_whole_buffer_witness :
  read (extractedInfo
          (run [UpdateMapFieldValue "shipper" "name" (VStr "South");
                UpdateFieldValue "invoice_number" (VStr "B2")]
             Fixtures.editingInvoice)) "shipper"
  = VObj [("name", VStr "South")].
Proof.
  unfold run. cbn [fold_left].
  rewrite (page_receives_the_whole_buffer (UpdateFieldValue "invoice_number" (VStr "B2"))
             (dispatch (UpdateMapFieldValue "shipper" "name" (VStr "South"))
                Fixtures.editingInvoice));
    [reflexivity | reflexivity | discriminate].
Defined.

(** Adding a row to a list and removing that new last row again leaves
    the edit buffer as it was, and the page's live value is then that
    buffer.  So the live value is what it was before exactly when it agreed
    with the buffer before: nested edits pending in the buffer go live. *)
Theorem addRow_then_removeRow_restores_the_buffer
    (s : Session) (fieldName : string) (columns : list Field) (rows : list ival) :
  read (editedInfo s) fieldName = VArr rows ->
  editedInfo (run [AddRow fieldName columns; RemoveRow fieldName (length rows)] s)
  = editedInfo s
  /\ extractedInfo (run [AddRow fieldName columns; RemoveRow fieldName (length rows)] s)
     = editedInfo s
  /\ (extractedInfo (run [AddRow fieldName columns; RemoveRow fieldName (length rows)] s)
      = extractedInfo s
      <-> extractedInfo s = editedInfo s).
Proof.
  intros Hrows.
  enough (editedInfo (run [AddRow fieldName columns; RemoveRow fieldName (length rows)] s)
          = editedInfo s
          /\ extractedInfo
               (run [AddRow fieldName columns; RemoveRow fieldName (length rows)] s)
             = editedInfo s) as [Hbuffer Hlive].
  { split; [exact Hbuffer | split; [exact Hlive |]]. rewrite Hlive.
    split; intros H; now rewrite H. }
  pose proof (read_array _ _ _ Hrows) as Hget.
  set (newItem :=
         VObj (fold_left (fun acc column => obj_set acc (name column) (VStr "")) columns [])).
  assert (editedInfo (dispatch (AddRow fieldName columns) s)
          = obj_set (editedInfo s) fieldName (VArr (rows ++ [newItem]))
          /\ extractedInfo (dispatch (AddRow fieldName columns) s)
             = obj_set (editedInfo s) fieldName (VArr (rows ++ [newItem]))) as [He Hx].
  { unfold dispatch, handler, addRow, listData. rewrite Hrows. cbn.
    unfold syncEffect. cbn. now destruct (editMode s). }
  unfold run. cbn [fold_left].
  remember (dispatch (AddRow fieldName columns) s) as s1 eqn:Hs1. clear Hs1.
  assert (read (editedInfo s1) fieldName = VArr (rows ++ [newItem])) as Hrows1
      by (rewrite He, read_set; now rewrite String.eqb_refl).
  assert (editedInfo (dispatch (RemoveRow fieldName (length rows)) s1) = editedInfo s
          /\ extractedInfo (dispatch (RemoveRow fieldName (length rows)) s1)
             = editedInfo s) as Hback.
  { unfold dispatch, handler, removeRow, listData. rewrite Hrows1. cbn.
    unfold splice1.
    replace (delete (length rows) (rows ++ [newItem])%list) with rows
      by (now rewrite delete_middle, app_nil_r).
    unfold syncEffect, updateFieldValue. cbn.
    rewrite He, obj_set_set, (obj_set_same _ _ _ Hget). now destruct (editMode s1). }
  exact Hback.
Qed.

(** A sub-field edit is pending in the buffer: after adding and removing
    a row the live value is the buffer, no longer what it was. *)
Lemma addRow_then_removeRow_restores_the_buffer_witness :
  editedInfo (run [AddRow "lines" [mkField "item" "Item" "string" None None];
                   RemoveRow "lines" 1] Samples.pendingInvoice)
  = editedInfo Samples.pendingInvoice
  /\ extractedInfo (run [AddRow "lines" [mkField "item" "Item" "string" None None];
                         RemoveRow "lines" 1] Samples.pendingInvoice)
     = editedInfo Samples.pendingInvoice
  /\ (extractedInfo (run [AddRow "lines" [mkField "item" "Item" "string" None None];
                          RemoveRow "lines" 1] Samples.pendingInvoice)
      = extractedInfo Samples.pendingInvoice
      <-> extractedInfo Samples.pendingInvoice = editedInfo Samples.pendingInvoice).
Proof.
  apply (addRow_then_removeRow_restores_the_buffer Samples.pendingInvoice
           "lines" [mkField "item" "Item" "string" None None]
           [VObj [("item", VStr "bolt")]]).
  reflexivity.
Defined.

(** Writing a cell of an existing table row and reading it back: the cell
    holds the new value, the other cells of the row, the other rows and the
    number of rows are as before. *)
Theorem table_cell_write_then_read
    (s : Session) (fieldName propertyName : string) (itemIndex : nat) (value : ival)
    (rows : list ival) (props : list (string * ival)) :
  read (editedInfo s) fieldName = VArr rows ->
  rows !! itemIndex = Some (VObj props) ->
  exists rows' props',
    read (editedInfo
            (dispatch (UpdateListItemProperty fieldName itemIndex propertyName value) s))
      fieldName = VArr rows'
    /\ length rows' = length rows
    /\ rows' !! itemIndex = Some (VObj props')
    /\ obj_get props' propertyName = Some value
    /\ (forall other, other <> propertyName -> obj_get props' other = obj_get props other)
    /\ (forall j, j <> itemIndex -> rows' !! j = rows !! j).
Proof.
  intros Hrows Hrow.
  assert (itemIndex < length rows)%nat as Hlt by (now apply lookup_lt_Some in Hrow).
  exists (<[itemIndex := VObj (obj_set props propertyName value)]> rows),
    (obj_set props propertyName value).
  split; [| split; [| split; [| split; [| split]]]].
  - unfold dispatch, handler, updateListItemProperty, notifiesPage. rewrite Hrows.
    cbn [or_else Values.truthy arr_spread]. rewrite Hrow.
    cbn [default from_option id Values.truthy obj_spread]. rewrite Hrow.
    cbn [default from_option id obj_spread].
    unfold arr_set. destruct (Nat.ltb_spec itemIndex (length rows)); [| lia].
    cbn. rewrite Bool.eqb_reflx. cbn. rewrite obj_get_set. now rewrite String.eqb_refl.
  - apply length_insert.
  - now apply list_lookup_insert_eq.
  - rewrite obj_get_set. now rewrite String.eqb_refl.
  - intros other Hother. rewrite obj_get_set.
    destruct (String.eqb_spec propertyName other); [congruence | reflexivity].
  - intros j Hj. now apply list_lookup_insert_ne.
Qed.

Lemma table_cell_write_then_read_witness :
  exists rows' props',
    read (editedInfo
            (dispatch (UpdateListItemProperty "lines" 0 "item" (VStr "nut"))
               Fixtures.editingInvoice)) "lines" = VArr rows'
    /\ length rows' = 1%nat
    /\ rows' !! 0%nat = Some (VObj props')
    /\ obj_get props' "item" = Some (VStr "nut")
    /\ (forall other, other <> "item"
                      -> obj_get props' other = obj_get [("item", VStr "bolt")] other)
    /\ (forall j, j <> 0%nat -> rows' !! j = [VObj [("item", VStr "bolt")]] !! j).
Proof.
  apply (table_cell_write_then_read Fixtures.editingInvoice "lines" "item" 0 (VStr "nut")
           [VObj [("item", VStr "bolt")]] [("item", VStr "bolt")]); reflexivity.
Defined.

Lemma run_app (evs evs' : list Event) (s : Session) :
  run (evs ++ evs') s = run evs' (run evs s).
Proof. unfold run. apply fold_left_app. Qed.

(** A nested edit made in edit mode touches the buffer only. *)
Lemma nested_edit_frame (ev : Event) (s : Session) :
  nestedEdit ev ->
  editMode s = true ->
  editMode (dispatch ev s) = true
  /\ extractedInfo (dispatch ev s) = extractedInfo s
  /\ originalInfo (dispatch ev s) = originalInfo s
  /\ saveRequests (dispatch ev s) = saveRequests s.
Proof.
  intros Hnested Hedit. unfold dispatch.
  destruct ev; try contradiction; cbn [handler notifiesPage orb].
  - cbn. rewrite Bool.eqb_reflx. cbn. now rewrite Hedit.
  - unfold updateListItem. destruct (arr_spread _); [| now rewrite Hedit].
    cbn. rewrite Bool.eqb_reflx. cbn. now rewrite Hedit.
  - unfold updateListItemProperty. destruct (arr_spread _); [| now rewrite Hedit].
    cbn. rewrite Bool.eqb_reflx. cbn. now rewrite Hedit.
Qed.

Lemma nested_edits_frame (evs : list Event) (s : Session) :
  Forall nestedEdit evs ->
  editMode s = true ->
  editMode (run evs s) = true
  /\ extractedInfo (run evs s) = extractedInfo s
  /\ originalInfo (run evs s) = originalInfo s
  /\ saveRequests (run evs s) = saveRequests s.
Proof.
  intros Hall. revert s. induction Hall as [|ev evs Hev Hall IH]; intros s Hedit.
  - now repeat split.
  - unfold run. cbn [fold_left]. fold (run evs (dispatch ev s)).
    destruct (nested_edit_frame ev s Hev Hedit) as (He & Hx & Ho & Hs).
    destruct (IH (dispatch ev s) He) as (He' & Hx' & Ho' & Hs').
    now rewrite He', Hx', Ho', Hs', Hx, Ho, Hs.
Qed.

(** When only nested leaves were edited in a session, the save request
    scheduled by the save button carries the value tree from before the
    session: [onSave] is the closure of the page render that saw no edit.
    The live value does receive the buffer. *)
Theorem nested_edits_miss_the_save_request (i : info) (evs : list Event) :
  Forall nestedEdit evs ->
  saveRequests (run (ToggleEditMode :: evs ++ [ToggleEditMode]) (mounted i)) = [i]
  /\ extractedInfo (run (ToggleEditMode :: evs ++ [ToggleEditMode]) (mounted i))
     = editedInfo (run (ToggleEditMode :: evs) (mounted i))
  /\ editMode (run (ToggleEditMode :: evs ++ [ToggleEditMode]) (mounted i)) = false.
Proof.
  intros Hall.
  change (ToggleEditMode :: evs ++ [ToggleEditMode])
    with ((ToggleEditMode :: evs) ++ [ToggleEditMode])%list.
  rewrite run_app.
  change (run (ToggleEditMode :: evs) (mounted i))
    with (run evs (dispatch ToggleEditMode (mounted i))).
  destruct (nested_edits_frame evs (dispatch ToggleEditMode (mounted i)) Hall eq_refl)
    as (He & Hx & _ & Hs).
  remember (run evs (dispatch ToggleEditMode (mounted i))) as s eqn:Hdef. clear Hdef.
  destruct s as [live mode buffer snapshot saves]. cbn in He, Hx, Hs. subst.
  repeat split.
Qed.

Lemma nested_edits_miss_the_save_request_witness :
  saveRequests
    (run (ToggleEditMode
            :: [UpdateMapFieldValue "shipper" "name" (VStr "South")] ++ [ToggleEditMode])
       (mounted Fixtures.invoiceInfo))
  = [Fixtures.invoiceInfo]
  /\ extractedInfo
       (run (ToggleEditMode
               :: [UpdateMapFieldValue "shipper" "name" (VStr "South")] ++ [ToggleEditMode])
          (mounted Fixtures.invoiceInfo))
     = editedInfo
         (run (ToggleEditMode :: [UpdateMapFieldValue "shipper" "name" (VStr "South")])
            (mounted Fixtures.invoiceInfo))
  /\ editMode
       (run (ToggleEditMode
               :: [UpdateMapFieldValue "shipper" "name" (VStr "South")] ++ [ToggleEditMode])
          (mounted Fixtures.invoiceInfo))
     = false.
Proof.
  apply (nested_edits_miss_the_save_request Fixtures.invoiceInfo
           [UpdateMapFieldValue "shipper" "name" (VStr "South")]).
  repeat constructor.
Defined.

(** After a session in which only nested leaves were edited, cancel puts
    the component back exactly where it was mounted: live value, buffer and
    rollback target hold the original tree and no save was scheduled. *)
Theorem cancel_undoes_nested_edits (i : info) (evs : list Event) :
  Forall nestedEdit evs ->
  run (ToggleEditMode :: evs ++ [CancelEdit]) (mounted i) = mounted i.
Proof.
  intros Hall.
  change (ToggleEditMode :: evs ++ [CancelEdit])
    with ((ToggleEditMode :: evs) ++ [CancelEdit])%list.
  rewrite run_app.
  change (run (ToggleEditMode :: evs) (mounted i))
    with (run evs (dispatch ToggleEditMode (mounted i))).
  destruct (nested_edits_frame evs (dispatch ToggleEditMode (mounted i)) Hall eq_refl)
    as (He & Hx & Ho & Hs).
  remember (run evs (dispatch ToggleEditMode (mounted i))) as s eqn:Hdef. clear Hdef.
  destruct s as [live mode buffer snapshot saves]. cbn in He, Hx, Ho, Hs. subst.
  reflexivity.
Qed.

Lemma cancel_undoes_nested_edits_witness :
  run (ToggleEditMode
         :: [UpdateMapFieldValue "shipper" "name" (VStr "South");
             UpdateListItemProperty "lines" 0 "item" (VStr "nut")] ++ [CancelEdit])
    (mounted Fixtures.invoiceInfo)
  = mounted Fixtures.invoiceInfo.
Proof.
  apply (cancel_undoes_nested_edits Fixtures.invoiceInfo
           [UpdateMapFieldValue "shipper" "name" (VStr "South");
            UpdateListItemProperty "lines" 0 "item" (VStr "nut")]).
  repeat constructor.
Defined.

End EditMoreFacts.

(** ** Editing token text *)

Module TokenEditFacts.

Import Review TokenEdit.

Lemma same_place_refl (r : row) : same_place r r.
Proof. now split. Qed.

Lemma same_place_trans (r1 r2 r3 : row) :
  same_place r1 r2 -> same_place r2 r3 -> same_place r1 r3.
Proof. intros [Hp Hg] [Hp' Hg']. split; congruence. Qed.

Lemma same_place_with_content (r : row) (text : string) :
  same_place r (Some (with_content r text)).
Proof. now destruct r. Qed.

Lemma same_places_refl (rows : list row) : Forall2 same_place rows rows.
Proof. induction rows; constructor; auto using same_place_refl. Qed.

Lemma retyped_row_keeps_place (rows : list row) (index : nat) (text : string) :
  Forall2 same_place rows
    (<[index := Some (with_content (default None (rows !! index)) text)]> rows).
Proof.
  revert index. induction rows as [|r rows IH]; intros index; [constructor |].
  destruct index as [|index]; cbn.
  - constructor; [apply same_place_with_content | apply same_places_refl].
  - constructor; [apply same_place_refl | apply IH].
Qed.

(** Typing into an existing row replaces that row's text and nothing
    else. *)
Lemma updateTextContent_in_range (index : nat) (text : string) (s : Session) :
  (index < length (editedResults s))%nat ->
  Forall2 same_place (editedResults s) (editedResults (updateTextContent index text s))
  /\ length (editedResults (updateTextContent index text s)) = length (editedResults s).
Proof.
  intros Hlt. unfold updateTextContent, write_at. cbn [editedResults].
  destruct (Nat.ltb_spec index (length (editedResults s))); [| lia].
  split; [apply retyped_row_keeps_place | apply length_insert].
Qed.

Lemma typing_frame (evs : list Event) (s : Session) :
  typing (length (editedResults s)) evs ->
  editMode (run evs s) = editMode s
  /\ ocrResults (run evs s) = ocrResults s
  /\ originalResults (run evs s) = originalResults s
  /\ posted (run evs s) = posted s
  /\ Forall2 same_place (editedResults s) (editedResults (run evs s)).
Proof.
  revert s. induction evs as [|ev evs IH]; intros s Htyping.
  - repeat split. apply same_places_refl.
  - destruct ev as [| |index text]; cbn [typing] in Htyping; try contradiction.
    destruct Htyping as [Hlt Htyping].
    destruct (updateTextContent_in_range index text s Hlt) as [Hplace Hlen].
    unfold run. cbn [fold_left]. fold (run evs (dispatch (UpdateTextContent index text) s)).
    assert (dispatch (UpdateTextContent index text) s = updateTextContent index text s)
      as Hstep by (unfold dispatch; cbn; now rewrite Bool.eqb_reflx).
    rewrite Hstep.
    destruct (IH (updateTextContent index text s)) as (He & Ho & Hr & Hp & Hplaces).
    { now rewrite Hlen. }
    rewrite He, Ho, Hr, Hp. repeat split.
    eapply Forall2_trans; [apply same_place_trans | exact Hplace | exact Hplaces].
Qed.

Lemma run_events_app (evs evs' : list Event) (s : Session) :
  run (evs ++ evs') s = run evs' (run evs s).
Proof. unfold run. apply fold_left_app. Qed.

(** A session of text edits on existing rows, ended with the save button:
    the page's token list has the same number of tokens, each on the page
    and with the geometry it had before; it is the edited list, and that
    very list is the body of the one save request. *)
Theorem text_edits_keep_pages_and_geometry (words : list row) (evs : list Event) :
  typing (length words) evs ->
  Forall2 same_place words
    (ocrResults (run (ToggleEditMode :: evs ++ [ToggleEditMode]) (mounted words)))
  /\ ocrResults (run (ToggleEditMode :: evs ++ [ToggleEditMode]) (mounted words))
     = editedResults (run (ToggleEditMode :: evs) (mounted words))
  /\ posted (run (ToggleEditMode :: evs ++ [ToggleEditMode]) (mounted words))
     = [editedResults (run (ToggleEditMode :: evs) (mounted words))]
  /\ editMode (run (ToggleEditMode :: evs ++ [ToggleEditMode]) (mounted words)) = false.
Proof.
  intros Htyping.
  change (ToggleEditMode :: evs ++ [ToggleEditMode])
    with ((ToggleEditMode :: evs) ++ [ToggleEditMode])%list.
  rewrite run_events_app.
  change (run (ToggleEditMode :: evs) (mounted words))
    with (run evs (dispatch ToggleEditMode (mounted words))).
  destruct (typing_frame evs (dispatch ToggleEditMode (mounted words)) Htyping)
    as (He & Ho & Hr & Hp & Hplaces).
  remember (run evs (dispatch ToggleEditMode (mounted words))) as s eqn:Hdef. clear Hdef.
  destruct s as [tokens mode buffer snapshot bodies].
  cbn in He, Ho, Hr, Hp, Hplaces. subst. repeat split. exact Hplaces.
Qed.

Lemma text_edits_keep_pages_and_geometry_witness :
  Forall2 same_place (Some <$> Fixtures.vendorWords)
    (ocrResults
       (run (ToggleEditMode :: [UpdateTextContent 1 "ACME Corp."] ++ [ToggleEditMode])
          (mounted (Some <$> Fixtures.vendorWords))))
  /\ ocrResults
       (run (ToggleEditMode :: [UpdateTextContent 1 "ACME Corp."] ++ [ToggleEditMode])
          (mounted (Some <$> Fixtures.vendorWords)))
     = editedResults
         (run (ToggleEditMode :: [UpdateTextContent 1 "ACME Corp."])
            (mounted (Some <$> Fixtures.vendorWords)))
  /\ posted
       (run (ToggleEditMode :: [UpdateTextContent 1 "ACME Corp."] ++ [ToggleEditMode])
          (mounted (Some <$> Fixtures.vendorWords)))
     = [editedResults
          (run (ToggleEditMode :: [UpdateTextContent 1 "ACME Corp."])
             (mounted (Some <$> Fixtures.vendorWords)))]
  /\ editMode
       (run (ToggleEditMode :: [UpdateTextContent 1 "ACME Corp."] ++ [ToggleEditMode])
          (mounted (Some <$> Fixtures.vendorWords)))
     = false.
Proof.
  apply (text_edits_keep_pages_and_geometry (Some <$> Fixtures.vendorWords)
           [UpdateTextContent 1 "ACME Corp."]).
  cbn. split; [lia | exact I].
Defined.

Lemma typing_only_frame (evs : list Event) (s : Session) :
  Forall (fun ev => exists index text, ev = UpdateTextContent index text) evs ->
  editMode (run evs s) = editMode s
  /\ ocrResults (run evs s) = ocrResults s
  /\ originalResults (run evs s) = originalResults s
  /\ posted (run evs s) = posted s.
Proof.
  intros Hall. revert s. induction Hall as [|ev evs (index & text & ->) Hall IH]; intros s.
  - now repeat split.
  - unfold run. cbn [fold_left]. fold (run evs (dispatch (UpdateTextContent index text) s)).
    assert (dispatch (UpdateTextContent index text) s = updateTextContent index text s)
      as -> by (unfold dispatch; cbn; now rewrite Bool.eqb_reflx).
    destruct (IH (updateTextContent index text s)) as (He & Ho & Hr & Hp).
    now rewrite He, Ho, Hr, Hp.
Qed.

(** Cancel really cancels a token edit: after any text edits, to any row
    index, the component is exactly as it was mounted: token list, buffer
    and rollback target hold the original tokens and nothing was posted. *)
Theorem cancel_undoes_text_edits (words : list row) (evs : list Event) :
  Forall (fun ev => exists index text, ev = UpdateTextContent index text) evs ->
  run (ToggleEditMode :: evs ++ [CancelEdit]) (mounted words) = mounted words.
Proof.
  intros Hall.
  change (ToggleEditMode :: evs ++ [CancelEdit])
    with ((ToggleEditMode :: evs) ++ [CancelEdit])%list.
  rewrite run_events_app.
  change (run (ToggleEditMode :: evs) (mounted words))
    with (run evs (dispatch ToggleEditMode (mounted words))).
  destruct (typing_only_frame evs (dispatch ToggleEditMode (mounted words)) Hall)
    as (He & Ho & Hr & Hp).
  remember (run evs (dispatch ToggleEditMode (mounted words))) as s eqn:Hdef. clear Hdef.
  destruct s as [tokens mode buffer snapshot bodies]. cbn in He, Ho, Hr, Hp. subst.
  reflexivity.
Qed.

Lemma cancel_undoes_text_edits_witness :
  run (ToggleEditMode
         :: [UpdateTextContent 1 "ACME Corp."; UpdateTextContent 5 "stray"] ++ [CancelEdit])
    (mounted (Some <$> Fixtures.vendorWords))
  = mounted (Some <$> Fixtures.vendorWords).
Proof.
  apply (cancel_undoes_text_edits (Some <$> Fixtures.vendorWords)
           [UpdateTextContent 1 "ACME Corp."; UpdateTextContent 5 "stray"]).
  repeat constructor; now eexists _, _.
Defined.

End TokenEditFacts.
